(** * FoodHub: the order / inventory canister

    A shallow embedding of the backend canister (products, orders and
    customer interactions kept in three [StableBTreeMap]s) and the
    properties of its update and query entry points.

    Conventions of the embedding
    - a handler is a function from the state of the three maps to a result
      and the next state;
    - [ic.caller()], [ic.time()] and the value [uuidv4()] returns are read
      from a per-call record [Call]; [owner] is the module-level constant;
    - the TypeScript [number] fields (quantities, ratings) hold integers and
      are modelled by [Z]; the arithmetic on them is the double's:
      [number_sub] and [number_add] round the exact result to 53
      significant bits, so they are exact up to 2^53 and no further;
      [nat64] fields are modelled by [Z] as well (no arithmetic is done on
      them, only the test against zero);
    - a [Principal] is identified by its textual form, the only thing the
      handlers look at;
    - a [StableBTreeMap] is a finite map from strings to records.  The
      insert of a customer interaction is refused when the encoded record
      is longer than the map's value bound, and the handler's [catch]
      answers.  [placeOrder] and [updateProductQuantity] write records
      that fit: a generated order, whose texts are ids, and a product
      re-inserted with another quantity, which is as long as the one it
      replaces.  The insert of [addProduct] sits behind its duplicate
      test, which under azle answers first. *)

From Stdlib Require Import ZArith Ascii.
From stdpp Require Import gmap strings.

Local Open Scope Z_scope.
Local Open Scope string_scope.

(** ** Values supplied by the platform *)

Record Principal := mkPrincipal { toString : string }.

Record Call := mkCall {
  caller : Principal;   (* ic.caller() *)
  time : Z;             (* ic.time() *)
  uuidv4 : string       (* the identifier uuidv4() hands out in this call *)
}.

(** ** Records *)

Module FoodProduct.
Record t := mk {
  id : string;
  name : string;
  description : string;
  price : Z;
  quantityAvailable : Z
}.

(* { ...product, quantityAvailable: q } *)
Definition with_quantityAvailable (product : t) (q : Z) : t :=
  {| id := id product; name := name product;
     description := description product; price := price product;
     quantityAvailable := q |}.
End FoodProduct.

Module FoodPayload.
Record t := mk {
  name : string;
  description : string;
  price : Z;
  quantityAvailable : Z
}.
End FoodPayload.

Module Order.
Record t := mk {
  id : string;
  customerId : Principal;
  productId : string;
  quantity : Z;
  status : string;
  createdAt : Z
}.

(* order.status = s *)
Definition set_status (order : t) (s : string) : t :=
  {| id := id order; customerId := customerId order;
     productId := productId order; quantity := quantity order;
     status := s; createdAt := createdAt order |}.
End Order.

Module OrderPayload.
Record t := mk {
  productId : string;
  quantity : Z
}.
End OrderPayload.

Module CustomerInteraction.
Record t := mk {
  id : string;
  customerId : Principal;
  productId : string;
  rating : Z;
  review : string;
  createdAt : Z
}.
End CustomerInteraction.

Module CustomerInteractionPayload.
Record t := mk {
  productId : string;
  rating : Z;
  review : string
}.
End CustomerInteractionPayload.

Inductive Result (T E : Type) : Type :=
| Ok (value : T)
| Err (error : E).
Arguments Ok {T E} value.
Arguments Err {T E} error.

(** ** What azle decides *)

(* the bytes of an unsigned LEB128 number *)
Definition leb128_size (n : Z) : Z :=
  (if n =? 0 then 1 else Z.log2 n / 7 + 1)%Z.

(* a Candid text: its length, then its bytes *)
Definition text_size (s : string) : Z :=
  leb128_size (Z.of_nat (String.length s)) + Z.of_nat (String.length s).

Fixpoint undashed_length (s : string) : Z :=
  match s with
  | EmptyString => 0
  | String c rest =>
      ((if Ascii.eqb c "-"%char then 0 else 1) + undashed_length rest)%Z
  end.

(* a Candid principal: a flag, the length of the blob, the blob; the text
   of a principal is the base 32 form of four check bytes and the blob,
   with a dash after every five characters *)
Definition principal_size (p : Principal) : Z :=
  let blob := undashed_length (toString p) * 5 / 8 - 4 in
  1 + leb128_size blob + blob.

(** The Candid encoding of a customer interaction, the form in which azle
    keeps a value in stable memory: the magic number and the type table
    of the record (42 bytes for these six field names), then the fields:
    three texts, a principal, a float64 and a nat64. *)
Definition candid_size (interaction : CustomerInteraction.t) : Z :=
  42
  + text_size (CustomerInteraction.id interaction)
  + principal_size (CustomerInteraction.customerId interaction)
  + text_size (CustomerInteraction.productId interaction)
  + 8
  + text_size (CustomerInteraction.review interaction)
  + 8.

(** The places where what a handler does is decided by azle and not by
    the handler's own text.

    - [opt_none_falsy]: [StableBTreeMap.get] returns an [Opt], which the
      handlers take apart with [match(..., {Some, None})].  [addProduct]
      alone tests such a value with [if (existingProduct)].  For azle the
      value is a variant object, [{Some: v}] or [{None: null}], and an
      object is truthy whatever it holds: [opt_none_falsy = false].
    - [get_is_live]: the maps keep their entries encoded in stable memory
      (the constructor's arguments are the memory id and the byte bounds
      44 and 512 of an encoded key and value), so [get] decodes a new
      object and an assignment to one of its fields stays in that object:
      [get_is_live = false].  With [true] the object [get] returns is the
      stored one and the assignment is seen by later calls.
    - [encoded_size]: the number of bytes a customer interaction takes in
      the map, which [insert] holds against the value bound. *)
Record Runtime := mkRuntime {
  opt_none_falsy : bool;
  get_is_live : bool;
  encoded_size : CustomerInteraction.t → Z
}.

Definition azle : Runtime :=
  {| opt_none_falsy := false; get_is_live := false;
     encoded_size := candid_size |}.

(** ** Storage *)

Record State := mkState {
  foodProducts : gmap string FoodProduct.t;
  orders : gmap string Order.t;
  customerInteractions : gmap string CustomerInteraction.t
}.

Definition init : State :=
  {| foodProducts := ∅; orders := ∅; customerInteractions := ∅ |}.

Definition insert_foodProduct (k : string) (v : FoodProduct.t) (st : State) : State :=
  {| foodProducts := <[k := v]> (foodProducts st);
     orders := orders st;
     customerInteractions := customerInteractions st |}.

Definition insert_order (k : string) (v : Order.t) (st : State) : State :=
  {| foodProducts := foodProducts st;
     orders := <[k := v]> (orders st);
     customerInteractions := customerInteractions st |}.

Definition insert_customerInteraction (k : string) (v : CustomerInteraction.t)
    (st : State) : State :=
  {| foodProducts := foodProducts st;
     orders := orders st;
     customerInteractions := <[k := v]> (customerInteractions st) |}.

(* new StableBTreeMap<string, CustomerInteraction>(2, 44, 512): the bound
   on the bytes of an encoded value *)
Definition max_value_size : Z := 512.

(* customerInteractions.insert(k, v): throws when the encoded value is
   longer than the bound, and then nothing is written (the key is a uuid:
   its 36 characters, encoded, are the 44 bytes of the key bound) *)
Definition try_insert_customerInteraction (rt : Runtime) (k : string)
    (v : CustomerInteraction.t) (st : State) : option State :=
  if (encoded_size rt v <=? max_value_size)%Z
  then Some (insert_customerInteraction k v st)
  else None.

(** ** JavaScript numbers *)

(** The double nearest to an integer [z]: [z] itself when it has at most
    53 significant bits, otherwise [z] rounded to 53 significant bits, a
    tie going to the even one.  (Beyond the largest double, about 2^1024,
    JavaScript gives [Infinity]; the properties below stay under it.) *)
Definition float64_round (z : Z) : Z :=
  let a := Z.abs z in
  if (a <? 2 ^ 53)%Z then z
  else
    let e := (Z.log2 a - 52)%Z in
    let m := (a / 2 ^ e)%Z in
    let r := (a mod 2 ^ e)%Z in
    let half := (2 ^ (e - 1))%Z in
    let m' :=
      if (r <? half)%Z then m
      else if (half <? r)%Z then (m + 1)%Z
      else if Z.even m then m else (m + 1)%Z in
    (Z.sgn z * (m' * 2 ^ e))%Z.


(* a - b and a + b on numbers *)
Definition number_sub (a b : Z) : Z := float64_round (a - b).
Definition number_add (a b : Z) : Z := float64_round (a + b).

(** ** JavaScript truthiness *)

(* !s on a string *)
Definition falsy_string (s : string) : bool := String.eqb s "".

(* !n on a number or a nat64 *)
Definition falsy_num (n : Z) : bool := Z.eqb n 0.

(* if (opt) on the value a [get] returned *)
Definition truthy_Opt {A : Type} (rt : Runtime) (opt : option A) : bool :=
  if opt_none_falsy rt then bool_decide (is_Some opt) else true.

(* a.toString() !== b.toString() *)
Definition differs (a b : Principal) : bool :=
  negb (String.eqb (toString a) (toString b)).

(** What the store holds under [k] once a handler has assigned to a field
    of the order it got from [orders.get(k)]. *)
Definition after_assignment (rt : Runtime) (k : string) (order : Order.t)
    (st : State) : State :=
  if get_is_live rt then insert_order k order st else st.

(** ** Entry points *)

Section Canister.

Variable rt : Runtime.

(* const owner: Principal = ic.caller(), evaluated once when the module is
   initialised *)
Variable owner : Principal.

(** *** Queries *)

Definition getProductsbyId (id : string) (st : State)
    : Result FoodProduct.t string :=
  if falsy_string id then Err "Invalid ID provided."
  else
    match foodProducts st !! id with
    | Some product => Ok product
    | None => Err ("Product with id=" +:+ id +:+ " not found")
    end.

(** *** Products *)

Definition addProduct (c : Call) (payload : FoodPayload.t) (st : State)
    : Result FoodProduct.t string * State :=
  if falsy_string (FoodPayload.name payload)
     || falsy_string (FoodPayload.description payload)
     || falsy_num (FoodPayload.price payload)
     || falsy_num (FoodPayload.quantityAvailable payload)
  then (Err "Invalid payload", st)
  else
    let productId := uuidv4 c in
    let product :=
      {| FoodProduct.id := productId;
         FoodProduct.name := FoodPayload.name payload;
         FoodProduct.description := FoodPayload.description payload;
         FoodProduct.price := FoodPayload.price payload;
         FoodProduct.quantityAvailable := FoodPayload.quantityAvailable payload |} in
    let existingProduct := foodProducts st !! FoodProduct.id product in
    if truthy_Opt rt existingProduct
    then (Err "Product with the same id already exists", st)
    else (Ok product, insert_foodProduct (FoodProduct.id product) product st).

Definition updateProductQuantity (c : Call) (productId : string) (newQuantity : Z)
    (st : State) : Result FoodProduct.t string * State :=
  if falsy_string productId then (Err "Invalid Product ID provided.", st)
  else
    match foodProducts st !! productId with
    | Some product =>
        if differs owner (caller c)
        then (Err "You are not the owner of this product", st)
        else
          let updatedProduct :=
            FoodProduct.with_quantityAvailable product newQuantity in
          (Ok updatedProduct,
           insert_foodProduct (FoodProduct.id product) updatedProduct st)
    | None =>
        (Err ("Couldn't update Product with id=" +:+ productId
              +:+ ". Product not found"), st)
    end.

(** *** Orders *)

Definition placeOrder (c : Call) (payload : OrderPayload.t) (st : State)
    : Result Order.t string * State :=
  if falsy_string (OrderPayload.productId payload)
     || falsy_num (OrderPayload.quantity payload)
  then (Err "Invalid payload", st)
  else
    match foodProducts st !! OrderPayload.productId payload with
    | Some product =>
        let orderId := uuidv4 c in
        let order :=
          {| Order.id := orderId;
             Order.customerId := caller c;
             Order.productId := OrderPayload.productId payload;
             Order.quantity := OrderPayload.quantity payload;
             Order.status := "placed";
             Order.createdAt := time c |} in
        let st1 := insert_order orderId order st in
        let updatedProduct :=
          FoodProduct.with_quantityAvailable product
            (number_sub (FoodProduct.quantityAvailable product)
               (OrderPayload.quantity payload)) in
        (Ok order,
         insert_foodProduct (FoodProduct.id product) updatedProduct st1)
    | None => (Err "Product not found", st)
    end.

Definition cancelOrder (c : Call) (orderId : string) (st : State)
    : bool * State :=
  if falsy_string orderId then (false, st)
  else
    match orders st !! orderId with
    | Some order =>
        if differs (Order.customerId order) (caller c) then (false, st)
        else if String.eqb (Order.status order) "placed"
        then (true,
              after_assignment rt orderId (Order.set_status order "cancelled") st)
        else (false, st)
    | None => (false, st)
    end.

Definition confirmOrder (c : Call) (orderId : string) (st : State)
    : bool * State :=
  if falsy_string orderId then (false, st)
  else
    match orders st !! orderId with
    | Some order =>
        if String.eqb (Order.status order) "placed"
        then (true,
              after_assignment rt orderId (Order.set_status order "confirmed") st)
        else (false, st)
    | None => (false, st)
    end.

Definition deliverOrder (c : Call) (orderId : string) (st : State)
    : bool * State :=
  if falsy_string orderId then (false, st)
  else
    match orders st !! orderId with
    | Some order =>
        if differs owner (caller c) then (false, st)
        else if String.eqb (Order.status order) "confirmed"
        then (true,
              after_assignment rt orderId (Order.set_status order "delivered") st)
        else (false, st)
    | None => (false, st)
    end.

(** *** Customer interactions *)

Definition addCustomerInteraction (c : Call)
    (payload : CustomerInteractionPayload.t) (st : State)
    : Result CustomerInteraction.t string * State :=
  if falsy_string (CustomerInteractionPayload.productId payload)
     || falsy_num (CustomerInteractionPayload.rating payload)
     || falsy_string (CustomerInteractionPayload.review payload)
  then (Err "Invalid payload", st)
  else
    let interactionId := uuidv4 c in
    let interaction :=
      {| CustomerInteraction.id := interactionId;
         CustomerInteraction.customerId := caller c;
         CustomerInteraction.productId :=
           CustomerInteractionPayload.productId payload;
         CustomerInteraction.rating := CustomerInteractionPayload.rating payload;
         CustomerInteraction.review := CustomerInteractionPayload.review payload;
         CustomerInteraction.createdAt := time c |} in
    match try_insert_customerInteraction rt interactionId interaction st with
    | Some st' => (Ok interaction, st')
    | None => (Err "Failed to create customer interaction", st)
    end.

(** ** Runs of the canister *)

Inductive Request :=
| AddProduct (payload : FoodPayload.t)
| UpdateProductQuantity (productId : string) (newQuantity : Z)
| PlaceOrder (payload : OrderPayload.t)
| CancelOrder (orderId : string)
| ConfirmOrder (orderId : string)
| DeliverOrder (orderId : string)
| AddCustomerInteraction (payload : CustomerInteractionPayload.t).

(* the state an update call leaves behind *)
Definition handle (c : Call) (req : Request) (st : State) : State :=
  match req with
  | AddProduct payload => snd (addProduct c payload st)
  | UpdateProductQuantity productId newQuantity =>
      snd (updateProductQuantity c productId newQuantity st)
  | PlaceOrder payload => snd (placeOrder c payload st)
  | CancelOrder orderId => snd (cancelOrder c orderId st)
  | ConfirmOrder orderId => snd (confirmOrder c orderId st)
  | DeliverOrder orderId => snd (deliverOrder c orderId st)
  | AddCustomerInteraction payload => snd (addCustomerInteraction c payload st)
  end.

(* uuidv4() hands out an identifier no map has as a key *)
Definition unused_uuid (c : Call) (st : State) : Prop :=
  foodProducts st !! uuidv4 c = None
  ∧ orders st !! uuidv4 c = None
  ∧ customerInteractions st !! uuidv4 c = None.

(* calls are served one at a time *)
Inductive run : State → State → Prop :=
| run_done st : run st st
| run_call st c req st' :
    unused_uuid c st → run (handle c req st) st' → run st st'.

End Canister.

(** ** Properties of the store and of an order's status *)

(* every product is stored under its own id *)
Definition keyed_by_id (st : State) : Prop :=
  map_Forall (λ k product, FoodProduct.id product = k) (foodProducts st).

(* the moves of an order's status *)
Inductive transition : string → string → Prop :=
| placed_confirmed : transition "placed" "confirmed"
| confirmed_delivered : transition "confirmed" "delivered"
| placed_cancelled : transition "placed" "cancelled".

Definition terminal (s : string) : Prop :=
  s = "cancelled" ∨ s = "delivered".

(** ** A small shop, used in the examples *)

Definition deployer : Principal := mkPrincipal "rwlgt-iiaaa-aaaaa-aaaaa-cai".
Definition customer : Principal := mkPrincipal "2vxsx-fae".

Definition burger_id : string := "7c9e6679-7425-40de-944b-e07fc1f90ae7".
Definition order_id : string := "9b1deb4d-3b7d-4bad-9bdd-2b0d7b3dcb6d".
Definition other_id : string := "1b9d6bcd-bbfd-4b2d-9b5d-ab8dfbbd4bed".

Definition burger_payload : FoodPayload.t :=
  {| FoodPayload.name := "Burger";
     FoodPayload.description := "Beef burger";
     FoodPayload.price := 500;
     FoodPayload.quantityAvailable := 10 |}.

Definition burger : FoodProduct.t :=
  {| FoodProduct.id := burger_id;
     FoodProduct.name := "Burger";
     FoodProduct.description := "Beef burger";
     FoodProduct.price := 500;
     FoodProduct.quantityAvailable := 10 |}.

(* the order of three burgers, in a given status *)
Definition burger_order (s : string) : Order.t :=
  {| Order.id := order_id;
     Order.customerId := customer;
     Order.productId := burger_id;
     Order.quantity := 3;
     Order.status := s;
     Order.createdAt := 1700000000 |}.

(* the shop before any order *)
Definition shop : State :=
  {| foodProducts := {[ burger_id := burger ]};
     orders := ∅;
     customerInteractions := ∅ |}.

(* the shop holding the order of three burgers *)
Definition shop_with (s : string) : State :=
  {| foodProducts := {[ burger_id := FoodProduct.with_quantityAvailable burger 7 ]};
     orders := {[ order_id := burger_order s ]};
     customerInteractions := ∅ |}.

Definition call_by (who : Principal) (uuid : string) : Call :=
  {| caller := who; time := 1700000000; uuidv4 := uuid |}.

(** ** The queries that list a map *)

(** [m.values()]: the records a map holds.  The list comes in the B-tree's
    key order, which is not modelled: what is stated about these queries
    is about which records are listed and how many. *)
Definition values {A : Type} (m : gmap string A) : list A :=
  (map_to_list m).*2.

Definition getCustomerInteractionsByProduct (productId : string) (st : State)
    : Result (list CustomerInteraction.t) string :=
  if falsy_string productId then Err "Invalid Product ID provided."
  else
    Ok (filter
          (λ interaction, CustomerInteraction.productId interaction = productId)
          (values (customerInteractions st))).

Definition getOrdersByCustomer (customerId : string) (st : State)
    : Result (list Order.t) string :=
  if falsy_string customerId then Err "Invalid Customer ID provided."
  else
    Ok (filter (λ order, toString (Order.customerId order) = customerId)
          (values (orders st))).

Definition getProducts (st : State) : Result (list FoodProduct.t) string :=
  Ok (values (foodProducts st)).

(** ** More properties of the store *)

(* every order and every interaction is stored under its own id *)
Definition orders_by_id (st : State) : Prop :=
  map_Forall (λ k order, Order.id order = k) (orders st).

Definition interactions_by_id (st : State) : Prop :=
  map_Forall (λ k interaction, CustomerInteraction.id interaction = k)
    (customerInteractions st).

(* every order names a product the store holds *)
Definition orders_refer (st : State) : Prop :=
  map_Forall (λ _ order, is_Some (foodProducts st !! Order.productId order))
    (orders st).

(* every stored order has status 'placed' *)
Definition all_placed (st : State) : Prop :=
  map_Forall (λ _ order, Order.status order = "placed") (orders st).

(** ** The cart of the food page *)

Module Food.
Section Cart.

(* an item of the catalogue, with the id the page compares *)
Context {Item Id : Type} `{EqDecision Id}.
Variable id : Item → Id.

(* { ...item, quantity } *)
Record CartItem := mkCartItem {
  fields : Item;
  quantity : Z
}.

(* cart.findIndex((item) => item.id === itemToAdd.id), counting from [i] *)
Fixpoint findIndex_from (i : Z) (itemToAdd : Item) (cart : list CartItem) : Z :=
  match cart with
  | [] => -1
  | item :: rest =>
      if decide (id (fields item) = id itemToAdd) then i
      else findIndex_from (i + 1) itemToAdd rest
  end.

Definition findIndex (itemToAdd : Item) (cart : list CartItem) : Z :=
  findIndex_from 0 itemToAdd cart.

(* item.quantity += 1 *)
Definition increment (item : CartItem) : CartItem :=
  {| fields := fields item; quantity := number_add (quantity item) 1 |}.

(* the cart handed to setCartItems and written to localStorage *)
Definition handleAddToCart (itemToAdd : Item) (cartItems : list CartItem)
    : list CartItem :=
  let updatedCart := cartItems in
  let itemIndex := findIndex itemToAdd updatedCart in
  if (-1 <? itemIndex)%Z
  then alter increment (Z.to_nat itemIndex) updatedCart
  else updatedCart ++ [ {| fields := itemToAdd; quantity := 1 |} ].

(* the ids of the entries, in the cart's order *)
Definition ids (cartItems : list CartItem) : list Id :=
  (λ item, id (fields item)) <$> cartItems.

(* cartItems.reduce((acc, item) => acc + item.quantity, 0) *)
Definition total (cartItems : list CartItem) : Z :=
  foldl (λ acc item, number_add acc (quantity item)) 0 cartItems.

(* the number on the cart icon, drawn when the cart is not empty *)
Definition badge (cartItems : list CartItem) : option Z :=
  if (0 <? length cartItems)%nat then Some (total cartItems) else None.

End Cart.
End Food.

Arguments Food.CartItem : clear implicits.
Arguments Food.mkCartItem {Item} fields quantity.

(** ** A day in the small shop and a small cart, used in the examples *)

(* the reading in which [get] hands out stored objects and a missing key
   tests as falsy *)
Definition by_reference : Runtime :=
  {| opt_none_falsy := true; get_is_live := true;
     encoded_size := candid_size |}.

Definition review_id : string := "6ec0bd7f-11c0-43da-975e-2a8ad9ebae0b".

Definition three_burgers : OrderPayload.t :=
  {| OrderPayload.productId := burger_id; OrderPayload.quantity := 3 |}.

Definition good_review : CustomerInteractionPayload.t :=
  {| CustomerInteractionPayload.productId := burger_id;
     CustomerInteractionPayload.rating := 5;
     CustomerInteractionPayload.review := "good" |}.

(* the customer orders three burgers *)
Definition morning (rt : Runtime) : State :=
  handle rt deployer (call_by customer order_id) (PlaceOrder three_burgers) shop.

(* ... and reviews them *)
Definition noon (rt : Runtime) : State :=
  handle rt deployer (call_by customer review_id)
    (AddCustomerInteraction good_review) (morning rt).

(* the owner confirms the order ... *)
Definition afternoon (rt : Runtime) : State :=
  handle rt deployer (call_by deployer other_id) (ConfirmOrder order_id)
    (noon rt).

(* ... and delivers it *)
Definition evening (rt : Runtime) : State :=
  handle rt deployer (call_by deployer other_id) (DeliverOrder order_id)
    (afternoon rt).



(* a review of 600 characters *)
Definition long_review : CustomerInteractionPayload.t :=
  {| CustomerInteractionPayload.productId := burger_id;
     CustomerInteractionPayload.rating := 4;
     CustomerInteractionPayload.review :=
       String.string_of_list_ascii (replicate 600 "a"%char) |}.

(* an item of the menu: its id and its price *)
Definition menu_item : Type := string * Z.

Definition fries : menu_item := ("fries", 200).
Definition cola : menu_item := ("cola", 150).
Definition wrap : menu_item := ("wrap", 450).

Definition small_cart : list (Food.CartItem menu_item) :=
  [Food.mkCartItem fries 2; Food.mkCartItem cola 1].

(** * Proofs *)

(** ** Truthiness tests *)

Lemma falsy_string_true s : falsy_string s = true ↔ s = "".
Proof. unfold falsy_string. apply String.eqb_eq. Qed.

Lemma falsy_string_false s : falsy_string s = false ↔ s ≠ "".
Proof. unfold falsy_string. apply String.eqb_neq. Qed.

Lemma falsy_num_true n : falsy_num n = true ↔ n = 0.
Proof. unfold falsy_num. apply Z.eqb_eq. Qed.

Lemma falsy_num_false n : falsy_num n = false ↔ n ≠ 0.
Proof. unfold falsy_num. apply Z.eqb_neq. Qed.

Lemma toString_inj a b : toString a = toString b → a = b.
Proof. destruct a, b; simpl; congruence. Qed.

Lemma differs_false a b : differs a b = false ↔ a = b.
Proof.
  unfold differs. rewrite negb_false_iff, String.eqb_eq.
  split; [apply toString_inj | congruence].
Qed.

Lemma differs_true a b : differs a b = true ↔ a ≠ b.
Proof.
  rewrite <- not_false_iff_true, differs_false. tauto.
Qed.

Lemma set_status_same order : Order.set_status order (Order.status order) = order.
Proof. by destruct order. Qed.

Lemma set_status_twice order s s' :
  Order.set_status (Order.set_status order s) s' = Order.set_status order s'.
Proof. reflexivity. Qed.

Lemma status_set_status order s : Order.status (Order.set_status order s) = s.
Proof. reflexivity. Qed.

(* turn the hypotheses [x ≠ ""] and [n ≠ 0] into the tests the handlers make *)
Ltac falsy :=
  repeat match goal with
  | H : _ ≠ _ |- _ =>
      first [ apply falsy_string_false in H | apply falsy_num_false in H ]
  end.

(** ** Validation of payloads *)

(** C8. A payload of [addProduct] whose name or description is empty, or
    whose price or quantityAvailable is zero, is answered with
    ['Invalid payload'] and the store is left as it was. *)
Theorem addProduct_rejects_falsy rt c payload st :
  FoodPayload.name payload = ""
  ∨ FoodPayload.description payload = ""
  ∨ FoodPayload.price payload = 0
  ∨ FoodPayload.quantityAvailable payload = 0 →
  addProduct rt c payload st = (Err "Invalid payload", st).
Proof.
  intros H. unfold addProduct.
  destruct H as [H | [H | [H | H]]]; rewrite H; simpl;
    repeat (rewrite ?orb_true_r; simpl); try reflexivity.
  all: by destruct (falsy_string _); simpl; rewrite ?orb_true_r.
Qed.

(** C9. [addCustomerInteraction] answers ['Invalid payload'] and inserts
    nothing when the product id or the review is empty or the rating is
    zero.  For every other payload, whatever the rating (negative, above
    5), it builds a record with the payload's fields, the generated id,
    the caller's identity and the time of the call; when the encoded
    record is within the map's bound of 512 bytes it stores and returns
    that record, and when it is longer it answers ['Failed to create
    customer interaction'] and inserts nothing. *)
Theorem addCustomerInteraction_spec rt c payload st :
  (CustomerInteractionPayload.productId payload = ""
   ∨ CustomerInteractionPayload.rating payload = 0
   ∨ CustomerInteractionPayload.review payload = "" →
   addCustomerInteraction rt c payload st = (Err "Invalid payload", st))
  ∧ (CustomerInteractionPayload.productId payload ≠ "" →
     CustomerInteractionPayload.rating payload ≠ 0 →
     CustomerInteractionPayload.review payload ≠ "" →
     let interaction :=
       {| CustomerInteraction.id := uuidv4 c;
          CustomerInteraction.customerId := caller c;
          CustomerInteraction.productId :=
            CustomerInteractionPayload.productId payload;
          CustomerInteraction.rating := CustomerInteractionPayload.rating payload;
          CustomerInteraction.review := CustomerInteractionPayload.review payload;
          CustomerInteraction.createdAt := time c |} in
     ((encoded_size rt interaction ≤ max_value_size)%Z →
      ∃ st',
        addCustomerInteraction rt c payload st = (Ok interaction, st')
        ∧ customerInteractions st' !! uuidv4 c = Some interaction
        ∧ foodProducts st' = foodProducts st
        ∧ orders st' = orders st)
     ∧ ((max_value_size < encoded_size rt interaction)%Z →
        addCustomerInteraction rt c payload st
        = (Err "Failed to create customer interaction", st))).
Proof.
  unfold addCustomerInteraction. split.
  - intros [H | [H | H]]; rewrite H; simpl; by rewrite ?orb_true_r.
  - intros Hp Hr Hv. falsy. rewrite Hp, Hr, Hv. simpl.
    unfold try_insert_customerInteraction. split.
    + intros Hfits. apply Z.leb_le in Hfits. rewrite Hfits.
      eexists. split; [reflexivity |]. simpl.
      by rewrite lookup_insert_eq.
    + intros Hlong. apply Z.leb_gt in Hlong. by rewrite Hlong.
Qed.

(* under azle the rating plays no part in whether the record fits *)
Lemma candid_size_any_rating id customerId productId rating rating' review
    createdAt :
  candid_size (CustomerInteraction.mk id customerId productId rating review
                 createdAt)
  = candid_size (CustomerInteraction.mk id customerId productId rating' review
                   createdAt).
Proof. reflexivity. Qed.

(** ** Order transitions: who may do what *)

(** C4. [confirmOrder] returns true exactly when the order id is not empty,
    an order is stored under it and that order's status is ['placed']; the
    caller plays no part in the answer; when it returns false the store is
    left as it was. *)
Theorem confirmOrder_spec rt c orderId st :
  (fst (confirmOrder rt c orderId st) = true ↔
     orderId ≠ ""
     ∧ ∃ order, orders st !! orderId = Some order
                ∧ Order.status order = "placed")
  ∧ (∀ c', fst (confirmOrder rt c' orderId st)
           = fst (confirmOrder rt c orderId st))
  ∧ (fst (confirmOrder rt c orderId st) = false →
     snd (confirmOrder rt c orderId st) = st).
Proof.
  unfold confirmOrder.
  destruct (falsy_string orderId) eqn:Hid; simpl.
  { apply falsy_string_true in Hid. repeat split; try done. by intros [? _]. }
  apply falsy_string_false in Hid.
  destruct (orders st !! orderId) as [order |] eqn:Hget; simpl.
  - destruct (String.eqb (Order.status order) "placed") eqn:Hs; simpl.
    + apply String.eqb_eq in Hs. repeat split; try done. by exists order.
    + apply String.eqb_neq in Hs. repeat split; try done.
      intros [_ [o [Ho Hp]]]. congruence.
  - repeat split; try done. intros [_ [o [Ho _]]]. congruence.
Qed.

(** C5. [deliverOrder] returns false and leaves the store as it was when
    the caller is not the owner captured at deployment, whatever the
    order's status; and also when the order id is empty, when no order is
    stored under it, and when the order's status is not ['confirmed']. *)
Theorem deliverOrder_refuses rt owner c orderId st :
  (caller c ≠ owner → deliverOrder rt owner c orderId st = (false, st))
  ∧ (orderId = "" → deliverOrder rt owner c orderId st = (false, st))
  ∧ (orders st !! orderId = None →
     deliverOrder rt owner c orderId st = (false, st))
  ∧ (∀ order, orders st !! orderId = Some order →
       Order.status order ≠ "confirmed" →
       deliverOrder rt owner c orderId st = (false, st)).
Proof.
  unfold deliverOrder. repeat split.
  - intros Hc. destruct (falsy_string orderId); [done |].
    destruct (orders st !! orderId); [| done].
    assert (owner ≠ caller c) as Hd by congruence.
    apply differs_true in Hd. by rewrite Hd.
  - intros ->. reflexivity.
  - intros ->. by destruct (falsy_string orderId).
  - intros order -> Hs. destruct (falsy_string orderId); [done |].
    destruct (differs owner (caller c)); [done |].
    apply String.eqb_neq in Hs. by rewrite Hs.
Qed.

(** ** Products are stored under their own id *)

Lemma keyed_by_id_init : keyed_by_id init.
Proof. unfold keyed_by_id. simpl. apply map_Forall_empty. Qed.

Lemma keyed_by_id_lookup st k product :
  keyed_by_id st → foodProducts st !! k = Some product →
  FoodProduct.id product = k.
Proof. intros Hinv Hget. exact (Hinv k product Hget). Qed.

Lemma keyed_by_id_insert st product :
  keyed_by_id st →
  keyed_by_id (insert_foodProduct (FoodProduct.id product) product st).
Proof.
  unfold keyed_by_id. simpl. intros Hinv.
  by apply map_Forall_insert_2.
Qed.

Lemma keyed_by_id_same_products st st' :
  foodProducts st' = foodProducts st → keyed_by_id st → keyed_by_id st'.
Proof. unfold keyed_by_id. by intros ->. Qed.

Lemma foodProducts_after_assignment rt k order st :
  foodProducts (after_assignment rt k order st) = foodProducts st.
Proof. unfold after_assignment. by destruct (get_is_live rt). Qed.

Lemma addProduct_keyed rt c payload st :
  keyed_by_id st → keyed_by_id (snd (addProduct rt c payload st)).
Proof.
  intros Hinv. unfold addProduct.
  destruct (_ || _); [done |]. simpl.
  destruct (truthy_Opt _ _); [done |]. simpl.
  by apply (keyed_by_id_insert st (FoodProduct.mk _ _ _ _ _)).
Qed.

Lemma updateProductQuantity_keyed owner c productId newQuantity st :
  keyed_by_id st →
  keyed_by_id (snd (updateProductQuantity owner c productId newQuantity st)).
Proof.
  intros Hinv. unfold updateProductQuantity.
  destruct (falsy_string _); [done |].
  destruct (foodProducts st !! productId) as [product |]; [| done].
  destruct (differs _ _); [done |]. simpl.
  by apply (keyed_by_id_insert st
              (FoodProduct.with_quantityAvailable product newQuantity)).
Qed.

Lemma placeOrder_keyed c payload st :
  keyed_by_id st → keyed_by_id (snd (placeOrder c payload st)).
Proof.
  intros Hinv. unfold placeOrder.
  destruct (_ || _); [done |].
  destruct (foodProducts st !! _) as [product |]; [| done]. simpl.
  apply (keyed_by_id_insert (insert_order _ _ st)
           (FoodProduct.with_quantityAvailable product _)).
  by apply (keyed_by_id_same_products st).
Qed.

Lemma handle_keyed rt owner c req st :
  keyed_by_id st → keyed_by_id (handle rt owner c req st).
Proof.
  intros Hinv. destruct req; simpl.
  - by apply addProduct_keyed.
  - by apply updateProductQuantity_keyed.
  - by apply placeOrder_keyed.
  - apply (keyed_by_id_same_products st); [| done]. unfold cancelOrder.
    repeat case_match; simpl; by rewrite ?foodProducts_after_assignment.
  - apply (keyed_by_id_same_products st); [| done]. unfold confirmOrder.
    repeat case_match; simpl; by rewrite ?foodProducts_after_assignment.
  - apply (keyed_by_id_same_products st); [| done]. unfold deliverOrder.
    repeat case_match; simpl; by rewrite ?foodProducts_after_assignment.
  - apply (keyed_by_id_same_products st); [| done].
    unfold addCustomerInteraction, try_insert_customerInteraction.
    by repeat case_match; simplify_eq.
Qed.

Lemma run_keyed rt owner st st' :
  run rt owner st st' → keyed_by_id st → keyed_by_id st'.
Proof.
  induction 1 as [| st c req st' _ _ IH]; [done |].
  intros Hinv. by apply IH, handle_keyed.
Qed.

(** C10. If every product is stored under its own id, that is still so
    after [addProduct], after [updateProductQuantity] and after
    [placeOrder], whatever their arguments and caller. *)
Theorem product_keys_preserved rt owner c st :
  keyed_by_id st →
  (∀ payload, keyed_by_id (snd (addProduct rt c payload st)))
  ∧ (∀ productId newQuantity,
       keyed_by_id (snd (updateProductQuantity owner c productId newQuantity st)))
  ∧ (∀ payload, keyed_by_id (snd (placeOrder c payload st))).
Proof.
  intros Hinv. repeat split; intros.
  - by apply addProduct_keyed.
  - by apply updateProductQuantity_keyed.
  - by apply placeOrder_keyed.
Qed.

(** ** Inventory *)

(* up to 2^53 a double holds every integer *)
Lemma float64_round_exact z : (Z.abs z ≤ 2 ^ 53)%Z → float64_round z = z.
Proof.
  intros Hz. unfold float64_round.
  destruct (Z.abs z <? 2 ^ 53)%Z eqn:Hlt; [done |].
  apply Z.ltb_ge in Hlt.
  assert (z = 2 ^ 53 ∨ z = - 2 ^ 53)%Z as [-> | ->] by lia; reflexivity.
Qed.


Lemma number_add_exact a b : (Z.abs (a + b) ≤ 2 ^ 53)%Z → number_add a b = (a + b)%Z.
Proof. apply float64_round_exact. Qed.


(** C6. [updateProductQuantity], on a store that keeps every product under
    its own id: an empty product id is answered with ['Invalid Product ID
    provided.']; otherwise a product id nothing is stored under is answered
    with the not-found message, whoever calls; otherwise a caller other
    than the owner is answered with ['You are not the owner of this
    product']; otherwise the record stored under the id becomes the old one
    with quantityAvailable replaced by the new quantity, and that record is
    returned.  The three failures leave the store as it was. *)
Theorem updateProductQuantity_spec owner c productId newQuantity st :
  keyed_by_id st →
  (productId = "" →
   updateProductQuantity owner c productId newQuantity st
   = (Err "Invalid Product ID provided.", st))
  ∧ (productId ≠ "" → foodProducts st !! productId = None →
     updateProductQuantity owner c productId newQuantity st
     = (Err ("Couldn't update Product with id=" +:+ productId
             +:+ ". Product not found"), st))
  ∧ (∀ product, productId ≠ "" →
       foodProducts st !! productId = Some product →
       caller c ≠ owner →
       updateProductQuantity owner c productId newQuantity st
       = (Err "You are not the owner of this product", st))
  ∧ (∀ product, productId ≠ "" →
       foodProducts st !! productId = Some product →
       caller c = owner →
       ∃ updated st',
         updateProductQuantity owner c productId newQuantity st
         = (Ok updated, st')
         ∧ foodProducts st' !! productId = Some updated
         ∧ FoodProduct.quantityAvailable updated = newQuantity
         ∧ FoodProduct.id updated = FoodProduct.id product
         ∧ FoodProduct.name updated = FoodProduct.name product
         ∧ FoodProduct.description updated = FoodProduct.description product
         ∧ FoodProduct.price updated = FoodProduct.price product
         ∧ orders st' = orders st
         ∧ customerInteractions st' = customerInteractions st).
Proof.
  intros Hinv. unfold updateProductQuantity. repeat split.
  - intros ->. reflexivity.
  - intros Hp ->. falsy. by rewrite Hp.
  - intros product Hp -> Hc.
    assert (owner ≠ caller c) as Hd by congruence.
    apply falsy_string_false in Hp. apply differs_true in Hd.
    by rewrite Hp, Hd.
  - intros product Hp Hget Hc.
    assert (owner = caller c) as Hd by congruence.
    apply falsy_string_false in Hp. apply differs_false in Hd.
    rewrite Hp, Hget, Hd.
    eexists _, _. split; [reflexivity |]. simpl.
    rewrite (keyed_by_id_lookup st _ _ Hinv Hget).
    by rewrite lookup_insert_eq.
Qed.

(** ** The life of an order *)

Lemma terminal_stuck s s' : terminal s → transition s s' → False.
Proof. intros [-> | ->] Ht; inversion Ht. Qed.

Lemma terminal_rtc s s' : terminal s → rtc transition s s' → s' = s.
Proof.
  intros Hs Hr. destruct Hr as [| s s1 s2 Ht _]; [done |].
  by destruct (terminal_stuck s s1).
Qed.

(* one assignment to [status] along [transition], seen from any key *)
Lemma assignment_moves rt orderId order s st k o :
  orders st !! orderId = Some order →
  transition (Order.status order) s →
  orders st !! k = Some o →
  ∃ o', orders (after_assignment rt orderId (Order.set_status order s) st) !! k
        = Some o'
        ∧ (o' = o ∨ (transition (Order.status o) (Order.status o')
                     ∧ o' = Order.set_status o (Order.status o'))).
Proof.
  intros Hget Ht Hk. unfold after_assignment.
  destruct (get_is_live rt); simpl; [| by eauto].
  destruct (decide (orderId = k)) as [-> | Hne].
  - rewrite lookup_insert_eq. assert (o = order) as -> by congruence.
    eexists. split; [reflexivity |]. right. by rewrite status_set_status.
  - rewrite lookup_insert_ne by done. eauto.
Qed.

Lemma handle_moves rt owner c req st k o :
  unused_uuid c st →
  orders st !! k = Some o →
  ∃ o', orders (handle rt owner c req st) !! k = Some o'
        ∧ (o' = o ∨ (transition (Order.status o) (Order.status o')
                     ∧ o' = Order.set_status o (Order.status o'))).
Proof.
  intros (_ & Hfresh & _) Hk. destruct req; simpl.
  - unfold addProduct. repeat case_match; simpl; eauto.
  - unfold updateProductQuantity. repeat case_match; simpl; eauto.
  - unfold placeOrder. repeat case_match; simpl; eauto.
    rewrite lookup_insert_ne by congruence. eauto.
  - unfold cancelOrder.
    destruct (falsy_string orderId); [by eauto |].
    destruct (orders st !! orderId) as [order |] eqn:Hget; [| by eauto].
    destruct (differs _ _); [by eauto |].
    destruct (String.eqb _ _) eqn:Hs; [| by eauto].
    apply String.eqb_eq in Hs. simpl.
    apply assignment_moves; [done | | done]. rewrite Hs. constructor.
  - unfold confirmOrder.
    destruct (falsy_string orderId); [by eauto |].
    destruct (orders st !! orderId) as [order |] eqn:Hget; [| by eauto].
    destruct (String.eqb _ _) eqn:Hs; [| by eauto].
    apply String.eqb_eq in Hs. simpl.
    apply assignment_moves; [done | | done]. rewrite Hs. constructor.
  - unfold deliverOrder.
    destruct (falsy_string orderId); [by eauto |].
    destruct (orders st !! orderId) as [order |] eqn:Hget; [| by eauto].
    destruct (differs _ _); [by eauto |].
    destruct (String.eqb _ _) eqn:Hs; [| by eauto].
    apply String.eqb_eq in Hs. simpl.
    apply assignment_moves; [done | | done]. rewrite Hs. constructor.
  - unfold addCustomerInteraction, try_insert_customerInteraction.
    repeat case_match; simplify_eq; simpl; eauto.
Qed.

Lemma run_moves rt owner st st' k o :
  run rt owner st st' →
  orders st !! k = Some o →
  ∃ o', orders st' !! k = Some o'
        ∧ rtc transition (Order.status o) (Order.status o')
        ∧ o' = Order.set_status o (Order.status o').
Proof.
  intros Hrun. revert o.
  induction Hrun as [st | st c req st' Hfresh _ IH]; intros o Hk.
  - exists o. by rewrite set_status_same.
  - destruct (handle_moves rt owner c req st k o Hfresh Hk)
      as (o1 & Hk1 & Hstep).
    destruct (IH o1 Hk1) as (o' & Hk' & Hrtc & Ho').
    exists o'. split; [done |].
    destruct Hstep as [-> | [Ht Ho1]]; [done |].
    split; [by eapply rtc_l |].
    by rewrite Ho', Ho1, set_status_twice.
Qed.

Lemma terminal_calls_refused rt owner c orderId order st :
  orders st !! orderId = Some order →
  terminal (Order.status order) →
  cancelOrder rt c orderId st = (false, st)
  ∧ confirmOrder rt c orderId st = (false, st)
  ∧ deliverOrder rt owner c orderId st = (false, st).
Proof.
  intros Hget Hs. unfold cancelOrder, confirmOrder, deliverOrder.
  rewrite Hget.
  destruct (falsy_string orderId); [done |].
  destruct (differs (Order.customerId order) (caller c)),
    (differs owner (caller c)), Hs as [-> | ->]; done.
Qed.

(** C3. Take an order stored under some id and any run of calls from there
    (each call's generated identifier unused).  The order is still stored
    under that id, and its status was reached from the earlier one by the
    moves placed → confirmed, confirmed → delivered, placed → cancelled
    alone.  If the earlier status is ['cancelled'] or ['delivered'] the
    stored order is the same at the end, and [cancelOrder], [confirmOrder]
    and [deliverOrder] on that id, by any caller, return false and leave
    the store as it was. *)
Theorem order_status_lifecycle rt owner st st' orderId order :
  orders st !! orderId = Some order →
  run rt owner st st' →
  ∃ order',
    orders st' !! orderId = Some order'
    ∧ rtc transition (Order.status order) (Order.status order')
    ∧ (terminal (Order.status order) →
       order' = order
       ∧ ∀ c, cancelOrder rt c orderId st' = (false, st')
              ∧ confirmOrder rt c orderId st' = (false, st')
              ∧ deliverOrder rt owner c orderId st' = (false, st')).
Proof.
  intros Hget Hrun.
  destruct (run_moves rt owner st st' orderId order Hrun Hget)
    as (order' & Hget' & Hrtc & Ho').
  exists order'. split; [done |]. split; [done |].
  intros Hterm. pose proof (terminal_rtc _ _ Hterm Hrtc) as Hsame.
  split.
  - rewrite Ho', Hsame. apply set_status_same.
  - intros c. apply (terminal_calls_refused rt owner c orderId order');
      [done | by rewrite Hsame].
Qed.

(** ** What the runtime makes of two handlers *)

(* the assignment [order.status = 'cancelled'] is not written back: under
   azle, on a store that holds a placed order, [cancelOrder] by its
   customer returns true and leaves the store as it was, and the same call
   made again returns true again *)
Lemma cancelOrder_assignment_lost c orderId order st :
  orderId ≠ "" →
  orders st !! orderId = Some order →
  Order.customerId order = caller c →
  Order.status order = "placed" →
  cancelOrder azle c orderId st = (true, st)
  ∧ (∃ stored, orders (snd (cancelOrder azle c orderId st)) !! orderId
               = Some stored
               ∧ Order.status stored = "placed")
  ∧ fst (cancelOrder azle c orderId (snd (cancelOrder azle c orderId st)))
    = true.
Proof.
  intros Hid Hget Hc Hs.
  assert (cancelOrder azle c orderId st = (true, st)) as Hcall.
  { unfold cancelOrder. apply falsy_string_false in Hid.
    apply differs_false in Hc. by rewrite Hid, Hget, Hc, Hs. }
  rewrite !Hcall. simpl. rewrite Hcall. eauto.
Qed.


(** C7. Under azle, [addProduct] with a payload whose four fields are all
    truthy answers ['Product with the same id already exists'] and leaves
    the store as it was, so the lookup of the generated id finds what it
    found before the call. *)
Theorem addProduct_reports_duplicate c payload st :
  FoodPayload.name payload ≠ "" →
  FoodPayload.description payload ≠ "" →
  FoodPayload.price payload ≠ 0 →
  FoodPayload.quantityAvailable payload ≠ 0 →
  addProduct azle c payload st
  = (Err "Product with the same id already exists", st)
  ∧ getProductsbyId (uuidv4 c) (snd (addProduct azle c payload st))
    = getProductsbyId (uuidv4 c) st.
Proof.
  intros Hn Hd Hp Hq. falsy.
  assert (addProduct azle c payload st
          = (Err "Product with the same id already exists", st)) as Hcall.
  { unfold addProduct. by rewrite Hn, Hd, Hp, Hq. }
  by rewrite Hcall.
Qed.

(* the same call when a missing key tests as falsy *)
Lemma addProduct_then_lookup rt c payload st :
  opt_none_falsy rt = true →
  FoodPayload.name payload ≠ "" →
  FoodPayload.description payload ≠ "" →
  FoodPayload.price payload ≠ 0 →
  FoodPayload.quantityAvailable payload ≠ 0 →
  uuidv4 c ≠ "" →
  foodProducts st !! uuidv4 c = None →
  ∃ product st',
    addProduct rt c payload st = (Ok product, st')
    ∧ getProductsbyId (FoodProduct.id product) st' = Ok product.
Proof.
  intros Hrt Hn Hd Hp Hq Hu Hfresh. falsy.
  unfold addProduct, truthy_Opt. rewrite Hn, Hd, Hp, Hq, Hrt. simpl.
  rewrite Hfresh. simpl.
  eexists _, _. split; [reflexivity |].
  unfold getProductsbyId. simpl. by rewrite Hu, lookup_insert_eq.
Qed.

(* under azle no run from the empty store ever holds a product or an order *)
Lemma azle_run_keeps_empty owner st st' :
  run azle owner st st' →
  foodProducts st = ∅ → orders st = ∅ →
  foodProducts st' = ∅ ∧ orders st' = ∅.
Proof.
  induction 1 as [| st c req st' _ _ IH]; [done |].
  intros Hp Ho. apply IH; destruct req; simpl.
  all: unfold addProduct, updateProductQuantity, placeOrder, cancelOrder,
         confirmOrder, deliverOrder, addCustomerInteraction,
         try_insert_customerInteraction.
  all: rewrite ?Hp, ?Ho, ?lookup_empty.
  all: repeat case_match; simplify_eq; simpl; done.
Qed.


(** ** The theorems at work on the small shop *)

Lemma shop_keyed : keyed_by_id shop.
Proof. unfold keyed_by_id, shop. simpl. by apply map_Forall_singleton. Qed.



Lemma cancelOrder_assignment_lost_witness :
  cancelOrder azle (call_by customer other_id) order_id (shop_with "placed")
  = (true, shop_with "placed")
  ∧ (∃ stored,
       orders (snd (cancelOrder azle (call_by customer other_id) order_id
                      (shop_with "placed"))) !! order_id = Some stored
       ∧ Order.status stored = "placed")
  ∧ fst (cancelOrder azle (call_by customer other_id) order_id
           (snd (cancelOrder azle (call_by customer other_id) order_id
                   (shop_with "placed")))) = true.
Proof.
  apply (cancelOrder_assignment_lost (call_by customer other_id) order_id
           (burger_order "placed") (shop_with "placed")).
  - discriminate.
  - reflexivity.
  - reflexivity.
  - reflexivity.
Defined.


(* a delivered order, then a cancel by its customer, a confirm and a
   deliver by the owner *)
Lemma order_status_lifecycle_witness :
  let st := shop_with "delivered" in
  let st' :=
    handle azle deployer (call_by deployer other_id) (DeliverOrder order_id)
      (handle azle deployer (call_by deployer other_id) (ConfirmOrder order_id)
         (handle azle deployer (call_by customer other_id) (CancelOrder order_id)
            st)) in
  ∃ order',
    orders st' !! order_id = Some order'
    ∧ rtc transition "delivered" (Order.status order')
    ∧ (terminal "delivered" →
       order' = burger_order "delivered"
       ∧ ∀ c, cancelOrder azle c order_id st' = (false, st')
              ∧ confirmOrder azle c order_id st' = (false, st')
              ∧ deliverOrder azle deployer c order_id st' = (false, st')).
Proof.
  intros st st'.
  apply (order_status_lifecycle azle deployer st st' order_id
           (burger_order "delivered")).
  - reflexivity.
  - repeat (eapply run_call; [by repeat split |]). apply run_done.
Defined.

Lemma product_keys_preserved_witness :
  (∀ payload,
     keyed_by_id (snd (addProduct azle (call_by customer other_id) payload shop)))
  ∧ (∀ productId newQuantity,
       keyed_by_id (snd (updateProductQuantity deployer
                           (call_by customer other_id) productId newQuantity
                           shop)))
  ∧ (∀ payload,
       keyed_by_id (snd (placeOrder (call_by customer other_id) payload shop))).
Proof.
  apply (product_keys_preserved azle deployer (call_by customer other_id) shop).
  exact shop_keyed.
Defined.

Lemma addProduct_rejects_falsy_witness :
  addProduct azle (call_by deployer other_id)
    {| FoodPayload.name := "Water"; FoodPayload.description := "Still";
       FoodPayload.price := 0; FoodPayload.quantityAvailable := 24 |} shop
  = (Err "Invalid payload", shop).
Proof.
  apply (addProduct_rejects_falsy azle (call_by deployer other_id)
           {| FoodPayload.name := "Water"; FoodPayload.description := "Still";
              FoodPayload.price := 0; FoodPayload.quantityAvailable := 24 |}
           shop).
  right. right. left. reflexivity.
Defined.

Lemma addProduct_reports_duplicate_witness :
  addProduct azle (call_by deployer burger_id) burger_payload init
  = (Err "Product with the same id already exists", init)
  ∧ getProductsbyId burger_id
      (snd (addProduct azle (call_by deployer burger_id) burger_payload init))
    = getProductsbyId burger_id init.
Proof.
  apply (addProduct_reports_duplicate (call_by deployer burger_id)
           burger_payload init).
  - simpl. discriminate.
  - simpl. discriminate.
  - simpl. lia.
  - simpl. lia.
Defined.

Lemma updateProductQuantity_spec_witness :
  ∃ updated st',
    updateProductQuantity deployer (call_by deployer other_id) burger_id 25 shop
    = (Ok updated, st')
    ∧ foodProducts st' !! burger_id = Some updated
    ∧ FoodProduct.quantityAvailable updated = 25
    ∧ FoodProduct.id updated = FoodProduct.id burger
    ∧ FoodProduct.name updated = FoodProduct.name burger
    ∧ FoodProduct.description updated = FoodProduct.description burger
    ∧ FoodProduct.price updated = FoodProduct.price burger
    ∧ orders st' = orders shop
    ∧ customerInteractions st' = customerInteractions shop.
Proof.
  destruct (updateProductQuantity_spec deployer (call_by deployer other_id)
              burger_id 25 shop shop_keyed) as (_ & _ & _ & Hok).
  apply (Hok burger).
  - discriminate.
  - reflexivity.
  - reflexivity.
Defined.

(* anyone may confirm the customer's order; nobody may confirm it twice
   when the assignment is kept *)
Lemma confirmOrder_spec_witness :
  fst (confirmOrder azle (call_by deployer other_id) order_id
         (shop_with "placed")) = true
  ∧ fst (confirmOrder azle (call_by customer other_id) order_id
           (shop_with "confirmed")) = false.
Proof.
  split.
  - destruct (confirmOrder_spec azle (call_by deployer other_id) order_id
                (shop_with "placed")) as [[_ Hiff] _].
    apply Hiff. split; [discriminate |]. by exists (burger_order "placed").
  - reflexivity.
Defined.

(* the customer cannot deliver the confirmed order *)
Lemma deliverOrder_refuses_witness :
  deliverOrder azle deployer (call_by customer other_id) order_id
    (shop_with "confirmed")
  = (false, shop_with "confirmed").
Proof.
  destruct (deliverOrder_refuses azle deployer (call_by customer other_id)
              order_id (shop_with "confirmed")) as [Hcaller _].
  apply Hcaller. unfold call_by, customer, deployer. simpl. discriminate.
Defined.

(* a rating of -3 is taken *)
Lemma addCustomerInteraction_spec_witness :
  ∃ st',
    addCustomerInteraction azle (call_by customer other_id)
      {| CustomerInteractionPayload.productId := burger_id;
         CustomerInteractionPayload.rating := -3;
         CustomerInteractionPayload.review := "cold" |} shop
    = (Ok {| CustomerInteraction.id := other_id;
             CustomerInteraction.customerId := customer;
             CustomerInteraction.productId := burger_id;
             CustomerInteraction.rating := -3;
             CustomerInteraction.review := "cold";
             CustomerInteraction.createdAt := 1700000000 |}, st')
    ∧ customerInteractions st' !! other_id
      = Some {| CustomerInteraction.id := other_id;
                CustomerInteraction.customerId := customer;
                CustomerInteraction.productId := burger_id;
                CustomerInteraction.rating := -3;
                CustomerInteraction.review := "cold";
                CustomerInteraction.createdAt := 1700000000 |}
    ∧ foodProducts st' = foodProducts shop
    ∧ orders st' = orders shop.
Proof.
  destruct (addCustomerInteraction_spec azle (call_by customer other_id)
              {| CustomerInteractionPayload.productId := burger_id;
                 CustomerInteractionPayload.rating := -3;
                 CustomerInteractionPayload.review := "cold" |} shop)
    as [_ Haccepted].
  apply Haccepted.
  - simpl. discriminate.
  - simpl. lia.
  - simpl. discriminate.
  - by vm_compute.
Defined.

(* a rating of 4 with a review of 600 characters: the record does not fit
   in 512 bytes and nothing is stored *)
Lemma addCustomerInteraction_long_review_counterexample :
  CustomerInteractionPayload.productId long_review ≠ ""
  ∧ CustomerInteractionPayload.rating long_review ≠ 0
  ∧ CustomerInteractionPayload.review long_review ≠ ""
  ∧ addCustomerInteraction azle (call_by customer review_id) long_review shop
    = (Err "Failed to create customer interaction", shop)
  ∧ ¬ (∃ interaction st',
         addCustomerInteraction azle (call_by customer review_id) long_review
           shop = (Ok interaction, st')).
Proof.
  assert (addCustomerInteraction azle (call_by customer review_id) long_review
            shop = (Err "Failed to create customer interaction", shop))
    as Hcall by (vm_compute; reflexivity).
  split; [discriminate |]. split; [discriminate |]. split; [discriminate |].
  split; [exact Hcall |].
  intros (interaction & st' & Hok). rewrite Hcall in Hok. discriminate Hok.
Qed.

(** * Further properties of the canister *)

(** ** Looking a product up *)

(** X1. [getProductsbyId] returns a product exactly when the id is not
    empty and that product is stored under it; an empty id is answered
    with ['Invalid ID provided.'] and an id nothing is stored under with
    the not-found message carrying the id. *)
Theorem getProductsbyId_spec id st :
  (∀ product,
     getProductsbyId id st = Ok product ↔
     id ≠ "" ∧ foodProducts st !! id = Some product)
  ∧ (id = "" → getProductsbyId id st = Err "Invalid ID provided.")
  ∧ (id ≠ "" → foodProducts st !! id = None →
     getProductsbyId id st = Err ("Product with id=" +:+ id +:+ " not found")).
Proof.
  unfold getProductsbyId. split; [| split].
  - intros product. destruct (falsy_string id) eqn:Hid.
    + apply falsy_string_true in Hid. split; [done | by intros [? _]].
    + apply falsy_string_false in Hid.
      destruct (foodProducts st !! id); split; try done.
      * intros [= ->]. done.
      * intros [_ [= ->]]. done.
      * intros [_ [=]].
  - intros ->. reflexivity.
  - intros Hid ->. apply falsy_string_false in Hid. by rewrite Hid.
Qed.

(** ** Changing a product's quantity *)

(** X2. Two [updateProductQuantity] calls in a row on the same id by the
    same caller answer and leave the store exactly as the second call
    alone would: the last quantity wins, whatever the first one was. *)
Theorem updateProductQuantity_last_wins owner c productId q1 q2 st :
  updateProductQuantity owner c productId q2
    (snd (updateProductQuantity owner c productId q1 st))
  = updateProductQuantity owner c productId q2 st.
Proof.
  unfold updateProductQuantity.
  destruct (falsy_string productId); [done |].
  destruct (foodProducts st !! productId) as [product |] eqn:Hget; simpl;
    [| by rewrite Hget].
  destruct (differs owner (caller c)) eqn:Hd; simpl; [by rewrite Hget |].
  destruct (decide (FoodProduct.id product = productId)) as [Heq | Hne].
  - rewrite Heq, lookup_insert_eq. simpl.
    unfold insert_foodProduct. simpl. by rewrite Heq, insert_insert_eq.
  - rewrite lookup_insert_ne, Hget by done.
    unfold insert_foodProduct. simpl. by rewrite insert_insert_eq.
Qed.

(** X3. On a store that keeps every product under its own id,
    [updateProductQuantity] changes nothing but the record under the given
    id: every other product, every order and every interaction is as it
    was. *)
Theorem updateProductQuantity_frame owner c productId newQuantity st :
  keyed_by_id st →
  let st' := snd (updateProductQuantity owner c productId newQuantity st) in
  (∀ id, id ≠ productId → getProductsbyId id st' = getProductsbyId id st)
  ∧ orders st' = orders st
  ∧ customerInteractions st' = customerInteractions st.
Proof.
  intros Hinv. unfold updateProductQuantity.
  destruct (falsy_string productId); [done |].
  destruct (foodProducts st !! productId) as [product |] eqn:Hget; [| done].
  destruct (differs owner (caller c)); [done |]. simpl.
  rewrite (keyed_by_id_lookup st _ _ Hinv Hget).
  split; [| done]. intros id Hne. unfold getProductsbyId. simpl.
  by rewrite lookup_insert_ne.
Qed.

(** ** Placing orders *)

(** X4. [placeOrder] answers ['Invalid payload'] when the product id is
    empty or the quantity is zero, and ['Product not found'] when nothing
    is stored under the product id; in both cases no order is stored and
    no stock is taken. *)
Theorem placeOrder_rejects c payload st :
  (OrderPayload.productId payload = "" ∨ OrderPayload.quantity payload = 0 →
   placeOrder c payload st = (Err "Invalid payload", st))
  ∧ (OrderPayload.productId payload ≠ "" →
     OrderPayload.quantity payload ≠ 0 →
     foodProducts st !! OrderPayload.productId payload = None →
     placeOrder c payload st = (Err "Product not found", st)).
Proof.
  unfold placeOrder. split.
  - intros [H | H]; rewrite H; simpl; by rewrite ?orb_true_r.
  - intros Hp Hq ->. falsy. by rewrite Hp, Hq.
Qed.

(** X5. On a store that keeps every product under its own id, [placeOrder]
    touches the ordered product and the entry under the generated order
    id only: every other product, every other order and every interaction
    is as it was. *)
Theorem placeOrder_frame c payload st :
  keyed_by_id st →
  let st' := snd (placeOrder c payload st) in
  (∀ id, id ≠ OrderPayload.productId payload →
         foodProducts st' !! id = foodProducts st !! id)
  ∧ (∀ k, k ≠ uuidv4 c → orders st' !! k = orders st !! k)
  ∧ customerInteractions st' = customerInteractions st.
Proof.
  intros Hinv. unfold placeOrder.
  destruct (_ || _); [done |].
  destruct (foodProducts st !! _) as [product |] eqn:Hget; [| done]. simpl.
  rewrite (keyed_by_id_lookup st _ _ Hinv Hget).
  split; [| split]; [| | done].
  - intros id Hne. by rewrite lookup_insert_ne.
  - intros k Hne. by rewrite lookup_insert_ne.
Qed.


(** ** Who gets a true answer *)

(** X7. [cancelOrder] returns true exactly when the order id is not empty,
    an order is stored under it, the caller is that order's customer and
    its status is ['placed']; when it returns false the store is as it
    was. *)
Theorem cancelOrder_true_iff rt c orderId st :
  (fst (cancelOrder rt c orderId st) = true ↔
     orderId ≠ ""
     ∧ ∃ order, orders st !! orderId = Some order
                ∧ Order.customerId order = caller c
                ∧ Order.status order = "placed")
  ∧ (fst (cancelOrder rt c orderId st) = false →
     snd (cancelOrder rt c orderId st) = st).
Proof.
  unfold cancelOrder.
  destruct (falsy_string orderId) eqn:Hid; simpl.
  { apply falsy_string_true in Hid. split; [| done].
    split; [done | by intros [? _]]. }
  apply falsy_string_false in Hid.
  destruct (orders st !! orderId) as [order |] eqn:Hget; simpl.
  - destruct (differs _ _) eqn:Hd; simpl.
    { apply differs_true in Hd. split; [| done]. split; [done |].
      intros [_ (o & Ho & Hc & _)]. congruence. }
    apply differs_false in Hd.
    destruct (String.eqb _ _) eqn:Hs; simpl.
    + apply String.eqb_eq in Hs. split; [| done]. split; [| done].
      intros _. split; [done |]. by exists order.
    + apply String.eqb_neq in Hs. split; [| done]. split; [done |].
      intros [_ (o & Ho & _ & Hp)]. congruence.
  - split; [| done]. split; [done |]. intros [_ (o & Ho & _)]. congruence.
Qed.

(** X8. [deliverOrder] returns true exactly when the order id is not
    empty, an order is stored under it, the caller is the owner captured
    at deployment and the order's status is ['confirmed']; when it returns
    false the store is as it was. *)
Theorem deliverOrder_true_iff rt owner c orderId st :
  (fst (deliverOrder rt owner c orderId st) = true ↔
     orderId ≠ ""
     ∧ caller c = owner
     ∧ ∃ order, orders st !! orderId = Some order
                ∧ Order.status order = "confirmed")
  ∧ (fst (deliverOrder rt owner c orderId st) = false →
     snd (deliverOrder rt owner c orderId st) = st).
Proof.
  unfold deliverOrder.
  destruct (falsy_string orderId) eqn:Hid; simpl.
  { apply falsy_string_true in Hid. split; [| done].
    split; [done | by intros [? _]]. }
  apply falsy_string_false in Hid.
  destruct (orders st !! orderId) as [order |] eqn:Hget; simpl.
  - destruct (differs _ _) eqn:Hd; simpl.
    { apply differs_true in Hd. split; [| done]. split; [done |].
      intros (_ & Hc & _). congruence. }
    apply differs_false in Hd.
    destruct (String.eqb _ _) eqn:Hs; simpl.
    + apply String.eqb_eq in Hs. split; [| done]. split; [| done].
      intros _. split; [done |]. split; [done |]. by exists order.
    + apply String.eqb_neq in Hs. split; [| done]. split; [done |].
      intros (_ & _ & o & Ho & Hp). congruence.
  - split; [| done]. split; [done |]. intros (_ & _ & o & Ho & _). congruence.
Qed.

(** ** What a run of calls keeps *)

(* every handler, case by case *)
Ltac handle_cases req :=
  destruct req; simpl;
  unfold addProduct, updateProductQuantity, placeOrder, cancelOrder,
    confirmOrder, deliverOrder, addCustomerInteraction,
    try_insert_customerInteraction, after_assignment;
  repeat case_match; simplify_eq; simpl.

Lemma is_Some_insert {A} (m : gmap string A) i x k :
  is_Some (m !! k) → is_Some (<[i := x]> m !! k).
Proof.
  intros Hk. destruct (decide (i = k)) as [-> | Hne].
  - rewrite lookup_insert_eq. eauto.
  - by rewrite lookup_insert_ne.
Qed.

Lemma handle_keeps_keys rt owner c req st :
  (∀ k, is_Some (foodProducts st !! k) →
        is_Some (foodProducts (handle rt owner c req st) !! k))
  ∧ (∀ k, is_Some (orders st !! k) →
          is_Some (orders (handle rt owner c req st) !! k))
  ∧ (∀ k, is_Some (customerInteractions st !! k) →
          is_Some (customerInteractions (handle rt owner c req st) !! k)).
Proof.
  handle_cases req; repeat split; intros k Hk; try done;
    by apply is_Some_insert.
Qed.

(** X9. No call ever removes anything: along a run, every key of the
    product map, of the order map and of the interaction map stays a key
    of that map. *)
Theorem run_keeps_keys rt owner st st' :
  run rt owner st st' →
  (∀ k, is_Some (foodProducts st !! k) → is_Some (foodProducts st' !! k))
  ∧ (∀ k, is_Some (orders st !! k) → is_Some (orders st' !! k))
  ∧ (∀ k, is_Some (customerInteractions st !! k) →
          is_Some (customerInteractions st' !! k)).
Proof.
  induction 1 as [| st c req st' _ _ (IHp & IHo & IHi)]; [done |].
  destruct (handle_keeps_keys rt owner c req st) as (Hp & Ho & Hi).
  repeat split; intros k Hk; eauto.
Qed.

(** X10. Along a run (each call's generated identifier unused) a stored
    order keeps its id, customer, product id, quantity and creation time:
    the status is the only field a call ever changes. *)
Theorem run_keeps_order_fields rt owner st st' k order :
  run rt owner st st' →
  orders st !! k = Some order →
  ∃ order',
    orders st' !! k = Some order'
    ∧ Order.id order' = Order.id order
    ∧ Order.customerId order' = Order.customerId order
    ∧ Order.productId order' = Order.productId order
    ∧ Order.quantity order' = Order.quantity order
    ∧ Order.createdAt order' = Order.createdAt order.
Proof.
  intros Hrun Hk.
  destruct (run_moves rt owner st st' k order Hrun Hk) as (o' & Hk' & _ & Ho').
  exists o'. split; [done |]. by rewrite Ho'.
Qed.

Lemma handle_keeps_interactions rt owner c req st k interaction :
  unused_uuid c st →
  customerInteractions st !! k = Some interaction →
  customerInteractions (handle rt owner c req st) !! k = Some interaction.
Proof.
  intros (_ & _ & Hfresh) Hk. handle_cases req; try done.
  rewrite lookup_insert_ne; [done | congruence].
Qed.

(** X11. A stored customer interaction is never changed: along a run (each
    call's generated identifier unused) it stays stored under its key,
    field for field. *)
Theorem run_keeps_interactions rt owner st st' k interaction :
  run rt owner st st' →
  customerInteractions st !! k = Some interaction →
  customerInteractions st' !! k = Some interaction.
Proof.
  induction 1 as [| st c req st' Hfresh _ IH]; [done |].
  intros Hk. by apply IH, handle_keeps_interactions.
Qed.

Lemma handle_by_id rt owner c req st :
  orders_by_id st ∧ interactions_by_id st →
  orders_by_id (handle rt owner c req st)
  ∧ interactions_by_id (handle rt owner c req st).
Proof.
  unfold orders_by_id, interactions_by_id. intros [Ho Hi].
  handle_cases req; split; try done.
  all: try (apply map_Forall_insert_2; [| done]); try done.
  all: simpl; by eapply Ho.
Qed.

(** X12. If every product, every order and every interaction is stored
    under its own id, that is still so after any run of calls. *)
Theorem run_by_id rt owner st st' :
  run rt owner st st' →
  keyed_by_id st ∧ orders_by_id st ∧ interactions_by_id st →
  keyed_by_id st' ∧ orders_by_id st' ∧ interactions_by_id st'.
Proof.
  induction 1 as [| st c req st' _ _ IH]; [done |].
  intros (Hp & Ho & Hi). apply IH.
  split; [by apply handle_keyed | by apply handle_by_id].
Qed.

Lemma handle_orders_refer rt owner c req st :
  orders_refer st → orders_refer (handle rt owner c req st).
Proof.
  unfold orders_refer. intros Href.
  assert (∀ i x, map_Forall
            (λ _ order, is_Some (<[i := x]> (foodProducts st)
                                 !! Order.productId order)) (orders st))
    as Hins.
  { intros i x k o Hk. apply is_Some_insert. by eapply Href. }
  handle_cases req; try done.
  - apply map_Forall_insert_2; [| done]. simpl.
    apply is_Some_insert. eauto.
  - apply map_Forall_insert_2; [| done]. simpl. by eapply Href.
  - apply map_Forall_insert_2; [| done]. simpl. by eapply Href.
  - apply map_Forall_insert_2; [| done]. simpl. by eapply Href.
Qed.

(** X13. Orders never dangle: if every stored order names a product the
    store holds, that is still so after any run of calls. *)
Theorem run_orders_refer rt owner st st' :
  run rt owner st st' → orders_refer st → orders_refer st'.
Proof.
  induction 1 as [| st c req st' _ _ IH]; [done |].
  intros Href. by apply IH, handle_orders_refer.
Qed.

Lemma azle_handle_all_placed owner c req st :
  all_placed st → all_placed (handle azle owner c req st).
Proof.
  unfold all_placed. intros Hall. handle_cases req; try done.
  by apply map_Forall_insert_2.
Qed.

(** X14. Under azle, if every stored order has status ['placed'] then
    after any run of calls every stored order still has status ['placed'],
    and [deliverOrder] returns false for every caller and every id. *)
Theorem azle_never_delivers owner st st' :
  run azle owner st st' →
  all_placed st →
  all_placed st'
  ∧ ∀ c orderId, deliverOrder azle owner c orderId st' = (false, st').
Proof.
  intros Hrun Hall.
  assert (all_placed st') as Hall'.
  { induction Hrun as [| st c req st' _ _ IH]; [done |].
    by apply IH, azle_handle_all_placed. }
  split; [done |]. intros c orderId. unfold deliverOrder.
  destruct (falsy_string orderId); [done |].
  destruct (orders st' !! orderId) as [order |] eqn:Hget; [| done].
  destruct (differs owner (caller c)); [done |].
  by rewrite (Hall' orderId order Hget).
Qed.

(** X15. Whatever the payload and whatever [if (existingProduct)] makes of
    a missing key, [addProduct] never replaces a stored product: what was
    stored under a key is stored under it afterwards. *)
Theorem addProduct_never_overwrites rt c payload st k product :
  foodProducts st !! k = Some product →
  foodProducts (snd (addProduct rt c payload st)) !! k = Some product.
Proof.
  intros Hk. unfold addProduct, truthy_Opt.
  destruct (_ || _); [done |]. simpl.
  destruct (opt_none_falsy rt); [| done].
  destruct (foodProducts st !! uuidv4 c) as [existing |] eqn:Hget; [done |].
  simpl. rewrite lookup_insert_ne; [done | congruence].
Qed.

(** ** The listing queries *)

Lemma elem_of_values {A} (m : gmap string A) x :
  x ∈ values m ↔ ∃ k, m !! k = Some x.
Proof.
  unfold values. rewrite list_elem_of_fmap. split.
  - intros ([k y] & -> & Hin). exists k. by apply elem_of_map_to_list.
  - intros [k Hk]. exists (k, x). split; [done |].
    by apply elem_of_map_to_list.
Qed.

Lemma length_values {A} (m : gmap string A) : length (values m) = size m.
Proof. unfold values. by rewrite length_fmap, length_map_to_list. Qed.

(** X16. [getProducts] always succeeds; it lists exactly the stored
    products, as many as the map has keys. *)
Theorem getProducts_spec st :
  ∃ products,
    getProducts st = Ok products
    ∧ length products = size (foodProducts st)
    ∧ ∀ product, product ∈ products ↔
                 ∃ k, foodProducts st !! k = Some product.
Proof.
  exists (values (foodProducts st)). split; [done |].
  split; [apply length_values |]. intros product. apply elem_of_values.
Qed.

(** X17. [getOrdersByCustomer] answers ['Invalid Customer ID provided.']
    to the empty text; to any other text it answers with exactly the
    stored orders whose customer prints as that text, an empty list when
    there is none. *)
Theorem getOrdersByCustomer_spec customerId st :
  (customerId = "" →
   getOrdersByCustomer customerId st = Err "Invalid Customer ID provided.")
  ∧ (customerId ≠ "" →
     ∃ listed,
       getOrdersByCustomer customerId st = Ok listed
       ∧ ∀ order, order ∈ listed ↔
                  (∃ k, orders st !! k = Some order)
                  ∧ toString (Order.customerId order) = customerId).
Proof.
  unfold getOrdersByCustomer. split.
  - intros ->. reflexivity.
  - intros Hid. apply falsy_string_false in Hid. rewrite Hid.
    eexists. split; [reflexivity |]. intros order.
    rewrite list_elem_of_filter, elem_of_values. tauto.
Qed.

(** X18. [getCustomerInteractionsByProduct] answers ['Invalid Product ID
    provided.'] to the empty id; to any other id, whether a product is
    stored under it or not, it answers with exactly the stored
    interactions that name that product id. *)
Theorem getCustomerInteractionsByProduct_spec productId st :
  (productId = "" →
   getCustomerInteractionsByProduct productId st
   = Err "Invalid Product ID provided.")
  ∧ (productId ≠ "" →
     ∃ listed,
       getCustomerInteractionsByProduct productId st = Ok listed
       ∧ ∀ interaction, interaction ∈ listed ↔
           (∃ k, customerInteractions st !! k = Some interaction)
           ∧ CustomerInteraction.productId interaction = productId).
Proof.
  unfold getCustomerInteractionsByProduct. split.
  - intros ->. reflexivity.
  - intros Hid. apply falsy_string_false in Hid. rewrite Hid.
    eexists. split; [reflexivity |]. intros interaction.
    rewrite list_elem_of_filter, elem_of_values. tauto.
Qed.

(** X19. An order [placeOrder] returns is listed by [getOrdersByCustomer]
    for the caller's text right after the call (a principal's text is
    never empty). *)
Theorem placeOrder_then_listed c payload st order st' :
  toString (caller c) ≠ "" →
  placeOrder c payload st = (Ok order, st') →
  ∃ listed,
    getOrdersByCustomer (toString (caller c)) st' = Ok listed
    ∧ order ∈ listed.
Proof.
  intros Hc Hcall. apply falsy_string_false in Hc.
  unfold getOrdersByCustomer. rewrite Hc.
  eexists. split; [reflexivity |].
  rewrite list_elem_of_filter, elem_of_values.
  unfold placeOrder in Hcall.
  destruct (_ || _); [done |].
  destruct (foodProducts st !! _) as [product |]; [| done].
  injection Hcall as <- <-. simpl. split; [done |].
  exists (uuidv4 c). apply lookup_insert_eq.
Qed.

(** X20. An interaction [addCustomerInteraction] returns is listed by
    [getCustomerInteractionsByProduct] for the payload's product id right
    after the call. *)
Theorem addCustomerInteraction_then_listed rt c payload st interaction st' :
  addCustomerInteraction rt c payload st = (Ok interaction, st') →
  ∃ listed,
    getCustomerInteractionsByProduct
      (CustomerInteractionPayload.productId payload) st' = Ok listed
    ∧ interaction ∈ listed.
Proof.
  intros Hcall.
  unfold addCustomerInteraction, try_insert_customerInteraction in Hcall.
  destruct (falsy_string (CustomerInteractionPayload.productId payload))
    eqn:Hp; [done |].
  destruct (_ || _); [done |].
  destruct (_ <=? _)%Z; [| done].
  injection Hcall as <- <-.
  unfold getCustomerInteractionsByProduct. rewrite Hp.
  eexists. split; [reflexivity |].
  rewrite list_elem_of_filter, elem_of_values. simpl. split; [done |].
  exists (uuidv4 c). apply lookup_insert_eq.
Qed.

(** X21. Under azle, starting from the empty store, no run of calls ever
    stores a product or an order: [getProducts] keeps answering the empty
    list, and [placeOrder] answers with an error and stores nothing. *)
Theorem azle_shop_stays_empty owner st' :
  run azle owner init st' →
  getProducts st' = Ok []
  ∧ orders st' = ∅
  ∧ ∀ c payload, ∃ message, placeOrder c payload st' = (Err message, st').
Proof.
  intros Hrun.
  destruct (azle_run_keeps_empty owner init st' Hrun) as [Hp Ho]; [done .. |].
  split; [| split]; [| done |].
  - unfold getProducts, values. by rewrite Hp, map_to_list_empty.
  - intros c payload. unfold placeOrder. rewrite Hp, lookup_empty.
    destruct (_ || _); eauto.
Qed.

(** * The cart of the food page *)

Section CartProofs.

Context {Item Id : Type} `{EqDecision Id}.
Variable id : Item → Id.

Local Close Scope string_scope.

Implicit Types (cart cartItems before after : list (Food.CartItem Item)).

(* where findIndex stops: nowhere, or at the first entry with the id *)
Lemma findIndex_from_cases i itemToAdd (cart : list (Food.CartItem Item)) :
  (Food.findIndex_from id i itemToAdd cart = -1
   ∧ Forall (λ item, id (Food.fields item) ≠ id itemToAdd) cart)
  ∨ (∃ before item after,
       cart = before ++ item :: after
       ∧ Forall (λ item, id (Food.fields item) ≠ id itemToAdd) before
       ∧ id (Food.fields item) = id itemToAdd
       ∧ Food.findIndex_from id i itemToAdd cart
         = (i + Z.of_nat (length before))%Z).
Proof.
  revert i. induction cart as [| item rest IH]; intros i; simpl.
  - left. by split.
  - destruct (decide (id (Food.fields item) = id itemToAdd)) as [Heq | Hne].
    + right. exists [], item, rest. simpl. repeat split; try done. lia.
    + destruct (IH (i + 1)%Z) as [[Hnone Hall]
        | (before & it & after & -> & Hall & Hit & Hidx)].
      * left. split; [done |]. by constructor.
      * right. exists (item :: before), it, after. simpl.
        repeat split; try done; [by constructor |]. lia.
Qed.

Lemma handleAddToCart_absent itemToAdd (cart : list (Food.CartItem Item)) :
  Forall (λ item, id (Food.fields item) ≠ id itemToAdd) cart →
  Food.handleAddToCart id itemToAdd cart
  = cart ++ [Food.mkCartItem itemToAdd 1].
Proof.
  intros Hall. unfold Food.handleAddToCart, Food.findIndex.
  destruct (findIndex_from_cases 0 itemToAdd cart)
    as [[-> _] | (before & item & after & -> & _ & Hit & _)]; [done |].
  apply Forall_app in Hall as [_ Hall]. by inversion Hall.
Qed.

Lemma findIndex_from_first i itemToAdd (before after : list (Food.CartItem Item))
    item :
  Forall (λ item, id (Food.fields item) ≠ id itemToAdd) before →
  id (Food.fields item) = id itemToAdd →
  Food.findIndex_from id i itemToAdd (before ++ item :: after)
  = (i + Z.of_nat (length before))%Z.
Proof.
  intros Hall Hit. revert i.
  induction Hall as [| x l Hx _ IH]; intros i; simpl.
  - rewrite decide_True by done. lia.
  - rewrite decide_False by done. rewrite IH. lia.
Qed.

Lemma handleAddToCart_present itemToAdd (before after : list (Food.CartItem Item))
    item :
  Forall (λ item, id (Food.fields item) ≠ id itemToAdd) before →
  id (Food.fields item) = id itemToAdd →
  Food.handleAddToCart id itemToAdd (before ++ item :: after)
  = before ++ Food.increment item :: after.
Proof.
  intros Hall Hit. unfold Food.handleAddToCart, Food.findIndex.
  rewrite (findIndex_from_first 0 itemToAdd before after item Hall Hit).
  replace (-1 <? 0 + Z.of_nat (length before))%Z with true
    by (symmetry; apply Z.ltb_lt; lia).
  replace (Z.to_nat (0 + Z.of_nat (length before))) with (length before + 0)%nat
    by lia.
  by rewrite alter_app_r.
Qed.

(* the quantities added up exactly *)
Abbreviation exact_sum cart := (foldr Z.add 0%Z (Food.quantity <$> cart)).

Lemma exact_sum_app cart cart' :
  exact_sum (cart ++ cart') = (exact_sum cart + exact_sum cart')%Z.
Proof.
  induction cart as [| item rest IH]; csimpl; [done |]. rewrite IH. lia.
Qed.

Lemma exact_sum_nonneg cart :
  Forall (λ item, (0 ≤ Food.quantity item)%Z) cart → (0 ≤ exact_sum cart)%Z.
Proof. induction 1; csimpl; lia. Qed.

(* as long as the sum stays within 2^53 the reduce adds exactly *)
Lemma reduce_exact acc cart :
  (0 ≤ acc)%Z →
  Forall (λ item, (0 ≤ Food.quantity item)%Z) cart →
  (acc + exact_sum cart ≤ 2 ^ 53)%Z →
  foldl (λ acc item, number_add acc (Food.quantity item)) acc cart
  = (acc + exact_sum cart)%Z.
Proof.
  intros Hacc Hall. revert acc Hacc.
  induction Hall as [| item rest Hitem Hrest IH]; intros acc Hacc Hsum; csimpl.
  - lia.
  - csimpl in Hsum. pose proof (exact_sum_nonneg rest Hrest) as Hnn.
    rewrite number_add_exact by lia. rewrite IH by lia. lia.
Qed.

Lemma total_exact cart :
  Forall (λ item, (0 ≤ Food.quantity item)%Z) cart →
  (exact_sum cart ≤ 2 ^ 53)%Z →
  Food.total cart = exact_sum cart.
Proof.
  intros Hall Hsum. unfold Food.total. by rewrite reduce_exact.
Qed.

(* the ids in the cart after an add *)
Lemma handleAddToCart_ids itemToAdd (cart : list (Food.CartItem Item)) :
  (id itemToAdd ∈ Food.ids id cart
   ∧ Food.ids id (Food.handleAddToCart id itemToAdd cart) = Food.ids id cart)
  ∨ ((id itemToAdd ∉ Food.ids id cart)
     ∧ Food.ids id (Food.handleAddToCart id itemToAdd cart)
       = Food.ids id cart ++ [id itemToAdd]).
Proof.
  destruct (findIndex_from_cases 0 itemToAdd cart)
    as [[_ Hall] | (before & item & after & -> & Hall & Hit & _)].
  - right. split.
    + unfold Food.ids. rewrite list_elem_of_fmap. intros (item & Heq & Hin).
      rewrite Forall_forall in Hall. by apply (Hall item).
    + unfold Food.ids. by rewrite handleAddToCart_absent, fmap_app.
  - left. split.
    + unfold Food.ids. rewrite list_elem_of_fmap. exists item. split; [done |].
      apply elem_of_app. right. by left.
    + unfold Food.ids. rewrite handleAddToCart_present by done.
      by rewrite !fmap_app.
Qed.

(** X22. On a cart whose quantities are not negative and add up to less
    than 2^53, a click on Add raises the number on the cart icon by
    exactly one: after [handleAddToCart] the badge is drawn and shows the
    old sum of quantities plus one, whether the item was in the cart or
    not. *)
Theorem badge_after_add itemToAdd (cartItems : list (Food.CartItem Item)) :
  Forall (λ item, (0 ≤ Food.quantity item)%Z) cartItems →
  (foldr Z.add 0 (Food.quantity <$> cartItems) < 2 ^ 53)%Z →
  Food.badge (Food.handleAddToCart id itemToAdd cartItems)
  = Some (Food.total cartItems + 1)%Z.
Proof.
  intros Hall Hsum. unfold Food.badge.
  rewrite (total_exact cartItems) by (done || lia).
  destruct (findIndex_from_cases 0 itemToAdd cartItems)
    as [[_ Hnone] | (before & item & after & -> & Hnone & Hit & _)].
  - rewrite handleAddToCart_absent by done.
    rewrite length_app. simpl.
    replace (0 <? length cartItems + 1)%nat with true
      by (symmetry; apply Nat.ltb_lt; lia).
    f_equal. rewrite total_exact.
    + rewrite exact_sum_app. csimpl. lia.
    + apply Forall_app. split; [done |]. by repeat constructor.
    + rewrite exact_sum_app. csimpl. lia.
  - rewrite handleAddToCart_present by done.
    apply Forall_app in Hall as [Hbefore Hrest].
    apply Forall_cons in Hrest as [Hitem Hafter].
    pose proof (exact_sum_nonneg before Hbefore) as Hnn1.
    pose proof (exact_sum_nonneg after Hafter) as Hnn2.
    rewrite exact_sum_app in Hsum. csimpl in Hsum.
    assert (number_add (Food.quantity item) 1 = Food.quantity item + 1)%Z
      as Hinc by (apply number_add_exact; lia).
    unfold Food.increment.
    rewrite length_app. simpl.
    replace (0 <? length before + S (length after))%nat with true
      by (symmetry; apply Nat.ltb_lt; lia).
    f_equal. rewrite total_exact.
    + rewrite !exact_sum_app. csimpl. rewrite Hinc. lia.
    + apply Forall_app. split; [done |]. constructor; [| done].
      simpl. rewrite Hinc. lia.
    + rewrite exact_sum_app. csimpl. rewrite Hinc. lia.
Qed.

(** X23. [handleAddToCart] adds one entry at the end when no entry has the
    item's id, and keeps the number of entries when one has. *)
Theorem length_after_add itemToAdd (cartItems : list (Food.CartItem Item)) :
  (id itemToAdd ∈ Food.ids id cartItems →
   length (Food.handleAddToCart id itemToAdd cartItems) = length cartItems)
  ∧ ((id itemToAdd ∉ Food.ids id cartItems) →
     Food.handleAddToCart id itemToAdd cartItems
     = cartItems ++ [Food.mkCartItem itemToAdd 1]).
Proof.
  destruct (handleAddToCart_ids itemToAdd cartItems) as [[Hin Hids] | [Hout Hids]].
  - split; [| done]. intros _.
    apply (f_equal length) in Hids. unfold Food.ids in Hids.
    by rewrite !length_fmap in Hids.
  - split; [done |]. intros _. apply handleAddToCart_absent.
    apply Forall_forall. intros item Hitem Heq. apply Hout.
    unfold Food.ids. apply list_elem_of_fmap. by exists item.
Qed.

(** X24. A cart in which no two entries share an id stays such a cart
    after [handleAddToCart], and then has an entry with the added item's
    id. *)
Theorem distinct_ids_after_add itemToAdd (cartItems : list (Food.CartItem Item)) :
  NoDup (Food.ids id cartItems) →
  NoDup (Food.ids id (Food.handleAddToCart id itemToAdd cartItems))
  ∧ id itemToAdd ∈ Food.ids id (Food.handleAddToCart id itemToAdd cartItems).
Proof.
  intros Hnd.
  destruct (handleAddToCart_ids itemToAdd cartItems)
    as [[Hin ->] | [Hout ->]]; [done |].
  split.
  - apply NoDup_app. split; [done |]. split; [| apply NoDup_singleton].
    intros x Hx Hx'. apply list_elem_of_singleton in Hx'. by subst.
  - apply elem_of_app. right. by apply list_elem_of_singleton.
Qed.

(** X25. When entries of the cart share the item's id, [handleAddToCart]
    raises the quantity of the first of them by one, as long as the new
    quantity is within 2^53 either way, and leaves every other entry, the
    later ones with that id included, as it was. *)
Theorem add_increments_first itemToAdd (before after : list (Food.CartItem Item))
    item :
  Forall (λ item, id (Food.fields item) ≠ id itemToAdd) before →
  id (Food.fields item) = id itemToAdd →
  (Z.abs (Food.quantity item + 1) ≤ 2 ^ 53)%Z →
  Food.handleAddToCart id itemToAdd (before ++ item :: after)
  = before
    ++ Food.mkCartItem (Food.fields item) (Food.quantity item + 1) :: after.
Proof.
  intros Hall Hit Hsafe. rewrite handleAddToCart_present by done.
  unfold Food.increment. by rewrite number_add_exact.
Qed.

(** X26. Adding an item [n + 1] times, [n + 1] up to 2^53, to a cart that
    has no entry with its id leaves the cart with one more entry, for that
    item with quantity [n + 1]. *)
Theorem add_repeatedly itemToAdd (cartItems : list (Food.CartItem Item)) (n : nat) :
  (id itemToAdd ∉ Food.ids id cartItems) →
  (Z.of_nat (S n) ≤ 2 ^ 53)%Z →
  Nat.iter (S n) (Food.handleAddToCart id itemToAdd) cartItems
  = cartItems ++ [Food.mkCartItem itemToAdd (Z.of_nat (S n))].
Proof.
  intros Hout.
  assert (Forall (λ item, id (Food.fields item) ≠ id itemToAdd) cartItems) as Hall.
  { apply Forall_forall. intros item Hitem Heq. apply Hout.
    unfold Food.ids. apply list_elem_of_fmap. by exists item. }
  induction n as [| n IH]; intros Hn.
  - simpl. by apply handleAddToCart_absent.
  - change (Nat.iter (S (S n)) (Food.handleAddToCart id itemToAdd) cartItems)
      with (Food.handleAddToCart id itemToAdd
              (Nat.iter (S n) (Food.handleAddToCart id itemToAdd) cartItems)).
    rewrite IH by lia. rewrite handleAddToCart_present by done.
    unfold Food.increment. simpl. rewrite number_add_exact by lia.
    do 3 f_equal. lia.
Qed.

End CartProofs.

(** * The further properties at work *)

Lemma day_run rt :
  rt = azle ∨ rt = by_reference → run rt deployer shop (evening rt).
Proof.
  intros Hrt.
  apply (run_call rt deployer shop (call_by customer order_id)
           (PlaceOrder three_burgers)); [done |].
  apply (run_call rt deployer (morning rt) (call_by customer review_id)
           (AddCustomerInteraction good_review));
    [by destruct Hrt as [-> | ->] |].
  apply (run_call rt deployer (noon rt) (call_by deployer other_id)
           (ConfirmOrder order_id));
    [by destruct Hrt as [-> | ->] |].
  apply (run_call rt deployer (afternoon rt) (call_by deployer other_id)
           (DeliverOrder order_id));
    [by destruct Hrt as [-> | ->] |].
  apply run_done.
Qed.

Lemma getProductsbyId_spec_witness :
  getProductsbyId burger_id shop = Ok burger
  ∧ getProductsbyId order_id shop
    = Err ("Product with id=" +:+ order_id +:+ " not found").
Proof.
  destruct (getProductsbyId_spec burger_id shop) as (Hok & _ & _).
  destruct (getProductsbyId_spec order_id shop) as (_ & _ & Hmissing).
  split.
  - apply Hok. split; [discriminate | reflexivity].
  - apply Hmissing; [discriminate | reflexivity].
Defined.

Lemma updateProductQuantity_frame_witness :
  let st' := snd (updateProductQuantity deployer (call_by deployer other_id)
                    burger_id 25 (evening by_reference)) in
  (∀ id, id ≠ burger_id →
         getProductsbyId id st' = getProductsbyId id (evening by_reference))
  ∧ orders st' = orders (evening by_reference)
  ∧ customerInteractions st' = customerInteractions (evening by_reference).
Proof.
  apply (updateProductQuantity_frame deployer (call_by deployer other_id)
           burger_id 25 (evening by_reference)).
  apply (run_keyed by_reference deployer shop); [| exact shop_keyed].
  apply day_run. by right.
Defined.

Lemma placeOrder_rejects_witness :
  placeOrder (call_by customer order_id)
    {| OrderPayload.productId := burger_id; OrderPayload.quantity := 0 |} shop
  = (Err "Invalid payload", shop)
  ∧ placeOrder (call_by customer order_id)
      {| OrderPayload.productId := review_id; OrderPayload.quantity := 2 |} shop
    = (Err "Product not found", shop).
Proof.
  split.
  - apply (placeOrder_rejects (call_by customer order_id)
             {| OrderPayload.productId := burger_id;
                OrderPayload.quantity := 0 |} shop).
    right. reflexivity.
  - apply (placeOrder_rejects (call_by customer order_id)
             {| OrderPayload.productId := review_id;
                OrderPayload.quantity := 2 |} shop).
    + simpl. discriminate.
    + simpl. lia.
    + reflexivity.
Defined.

Lemma placeOrder_frame_witness :
  let st' := snd (placeOrder (call_by customer order_id) three_burgers shop) in
  (∀ id, id ≠ burger_id → foodProducts st' !! id = foodProducts shop !! id)
  ∧ (∀ k, k ≠ order_id → orders st' !! k = orders shop !! k)
  ∧ customerInteractions st' = customerInteractions shop.
Proof.
  apply (placeOrder_frame (call_by customer order_id) three_burgers shop).
  exact shop_keyed.
Defined.


(* the owner is not the customer: the cancel is refused *)
Lemma cancelOrder_true_iff_witness :
  fst (cancelOrder azle (call_by customer other_id) order_id
         (shop_with "placed")) = true
  ∧ snd (cancelOrder azle (call_by deployer other_id) order_id
           (shop_with "placed")) = shop_with "placed".
Proof.
  destruct (cancelOrder_true_iff azle (call_by customer other_id) order_id
              (shop_with "placed")) as [[_ Hyes] _].
  destruct (cancelOrder_true_iff azle (call_by deployer other_id) order_id
              (shop_with "placed")) as [_ Hno].
  split.
  - apply Hyes. split; [discriminate |].
    exists (burger_order "placed"). by repeat split.
  - apply Hno. reflexivity.
Defined.

Lemma deliverOrder_true_iff_witness :
  fst (deliverOrder azle deployer (call_by deployer other_id) order_id
         (shop_with "confirmed")) = true
  ∧ snd (deliverOrder azle deployer (call_by deployer other_id) order_id
           (shop_with "placed")) = shop_with "placed".
Proof.
  destruct (deliverOrder_true_iff azle deployer (call_by deployer other_id)
              order_id (shop_with "confirmed")) as [[_ Hyes] _].
  destruct (deliverOrder_true_iff azle deployer (call_by deployer other_id)
              order_id (shop_with "placed")) as [_ Hno].
  split.
  - apply Hyes. split; [discriminate |]. split; [reflexivity |].
    exists (burger_order "confirmed"). by split.
  - apply Hno. reflexivity.
Defined.

Lemma run_keeps_keys_witness :
  (∀ k, is_Some (foodProducts shop !! k) →
        is_Some (foodProducts (evening by_reference) !! k))
  ∧ (∀ k, is_Some (orders shop !! k) →
          is_Some (orders (evening by_reference) !! k))
  ∧ (∀ k, is_Some (customerInteractions shop !! k) →
          is_Some (customerInteractions (evening by_reference) !! k)).
Proof.
  apply (run_keeps_keys by_reference deployer shop (evening by_reference)).
  apply day_run. by right.
Defined.

(* from the order's placement to its delivery *)
Lemma run_keeps_order_fields_witness :
  ∃ order',
    orders (evening by_reference) !! order_id = Some order'
    ∧ Order.id order' = order_id
    ∧ Order.customerId order' = customer
    ∧ Order.productId order' = burger_id
    ∧ Order.quantity order' = 3
    ∧ Order.createdAt order' = 1700000000.
Proof.
  apply (run_keeps_order_fields by_reference deployer
           (morning by_reference) (evening by_reference) order_id
           (burger_order "placed")).
  - apply (run_call by_reference deployer (morning by_reference)
             (call_by customer review_id)
             (AddCustomerInteraction good_review)); [done |].
    apply (run_call by_reference deployer (noon by_reference)
             (call_by deployer other_id) (ConfirmOrder order_id)); [done |].
    apply (run_call by_reference deployer (afternoon by_reference)
             (call_by deployer other_id) (DeliverOrder order_id)); [done |].
    apply run_done.
  - reflexivity.
Defined.

Lemma run_keeps_interactions_witness :
  customerInteractions (evening azle) !! review_id
  = Some {| CustomerInteraction.id := review_id;
            CustomerInteraction.customerId := customer;
            CustomerInteraction.productId := burger_id;
            CustomerInteraction.rating := 5;
            CustomerInteraction.review := "good";
            CustomerInteraction.createdAt := 1700000000 |}.
Proof.
  apply (run_keeps_interactions azle deployer (noon azle) (evening azle)).
  - apply (run_call azle deployer (noon azle)
             (call_by deployer other_id) (ConfirmOrder order_id)); [done |].
    apply (run_call azle deployer (afternoon azle)
             (call_by deployer other_id) (DeliverOrder order_id)); [done |].
    apply run_done.
  - reflexivity.
Defined.

Lemma run_by_id_witness :
  keyed_by_id (evening by_reference)
  ∧ orders_by_id (evening by_reference)
  ∧ interactions_by_id (evening by_reference).
Proof.
  apply (run_by_id by_reference deployer shop (evening by_reference)).
  - apply day_run. by right.
  - split; [exact shop_keyed |]. split; apply map_Forall_empty.
Defined.

Lemma run_orders_refer_witness : orders_refer (evening by_reference).
Proof.
  apply (run_orders_refer by_reference deployer shop (evening by_reference)).
  - apply day_run. by right.
  - apply map_Forall_empty.
Defined.

(* under azle the day ends with the order still placed and undelivered *)
Lemma azle_never_delivers_witness :
  all_placed (evening azle)
  ∧ ∀ c orderId,
      deliverOrder azle deployer c orderId (evening azle)
      = (false, evening azle).
Proof.
  apply (azle_never_delivers deployer shop (evening azle)).
  - apply day_run. by left.
  - apply map_Forall_empty.
Defined.

Lemma addProduct_never_overwrites_witness :
  foodProducts
    (snd (addProduct by_reference (call_by deployer burger_id) burger_payload
            shop)) !! burger_id
  = Some burger.
Proof.
  apply (addProduct_never_overwrites by_reference (call_by deployer burger_id)
           burger_payload shop burger_id burger).
  reflexivity.
Defined.

Lemma getOrdersByCustomer_spec_witness :
  ∃ listed,
    getOrdersByCustomer "2vxsx-fae" (shop_with "placed") = Ok listed
    ∧ ∀ order, order ∈ listed ↔
               (∃ k, orders (shop_with "placed") !! k = Some order)
               ∧ toString (Order.customerId order) = "2vxsx-fae".
Proof.
  destruct (getOrdersByCustomer_spec "2vxsx-fae" (shop_with "placed"))
    as [_ Hlist].
  apply Hlist. discriminate.
Defined.

Lemma getCustomerInteractionsByProduct_spec_witness :
  ∃ listed,
    getCustomerInteractionsByProduct burger_id (noon azle) = Ok listed
    ∧ ∀ interaction, interaction ∈ listed ↔
        (∃ k, customerInteractions (noon azle) !! k = Some interaction)
        ∧ CustomerInteraction.productId interaction = burger_id.
Proof.
  destruct (getCustomerInteractionsByProduct_spec burger_id (noon azle))
    as [_ Hlist].
  apply Hlist. discriminate.
Defined.

Lemma placeOrder_then_listed_witness :
  ∃ listed,
    getOrdersByCustomer "2vxsx-fae" (morning azle) = Ok listed
    ∧ burger_order "placed" ∈ listed.
Proof.
  apply (placeOrder_then_listed (call_by customer order_id) three_burgers
           shop (burger_order "placed") (morning azle)).
  - simpl. discriminate.
  - reflexivity.
Defined.

Lemma addCustomerInteraction_then_listed_witness :
  ∃ listed,
    getCustomerInteractionsByProduct burger_id (noon azle) = Ok listed
    ∧ {| CustomerInteraction.id := review_id;
         CustomerInteraction.customerId := customer;
         CustomerInteraction.productId := burger_id;
         CustomerInteraction.rating := 5;
         CustomerInteraction.review := "good";
         CustomerInteraction.createdAt := 1700000000 |} ∈ listed.
Proof.
  apply (addCustomerInteraction_then_listed azle (call_by customer review_id)
           good_review (morning azle) _ (noon azle)).
  reflexivity.
Defined.

(* the owner adds a burger to the empty store, a customer orders it *)
Lemma azle_shop_stays_empty_witness :
  let st' :=
    handle azle deployer (call_by customer order_id) (PlaceOrder three_burgers)
      (handle azle deployer (call_by deployer burger_id)
         (AddProduct burger_payload) init) in
  getProducts st' = Ok []
  ∧ orders st' = ∅
  ∧ ∀ c payload, ∃ message, placeOrder c payload st' = (Err message, st').
Proof.
  intros st'. apply (azle_shop_stays_empty deployer st').
  apply (run_call azle deployer init (call_by deployer burger_id)
           (AddProduct burger_payload)); [done |].
  apply (run_call azle deployer _ (call_by customer order_id)
           (PlaceOrder three_burgers)); [done |].
  apply run_done.
Defined.

(** ** The cart at work *)

Lemma length_after_add_witness :
  length (Food.handleAddToCart fst cola small_cart) = length small_cart
  ∧ Food.handleAddToCart fst wrap small_cart
    = (small_cart ++ [Food.mkCartItem wrap 1])%list.
Proof.
  split.
  - apply (length_after_add fst cola small_cart). compute_done.
  - apply (length_after_add fst wrap small_cart). compute_done.
Defined.

Lemma distinct_ids_after_add_witness :
  NoDup (Food.ids fst (Food.handleAddToCart fst wrap small_cart))
  ∧ fst wrap ∈ Food.ids fst (Food.handleAddToCart fst wrap small_cart).
Proof.
  apply (distinct_ids_after_add fst wrap small_cart). compute_done.
Defined.

(* two fries and one cola in the cart: the badge goes from 3 to 4 *)
Lemma badge_after_add_witness :
  Food.badge (Food.handleAddToCart fst cola small_cart) = Some (3 + 1)%Z.
Proof.
  apply (badge_after_add fst cola small_cart).
  - repeat constructor; simpl; lia.
  - by vm_compute.
Defined.

(* two entries for cola: the first one is counted up *)
Lemma add_increments_first_witness :
  Food.handleAddToCart fst cola
    ([Food.mkCartItem fries 2] ++ Food.mkCartItem cola 1
       :: [Food.mkCartItem cola 4])%list
  = ([Food.mkCartItem fries 2] ++ Food.mkCartItem cola (1 + 1)
       :: [Food.mkCartItem cola 4])%list.
Proof.
  apply (add_increments_first fst cola [Food.mkCartItem fries 2]
           [Food.mkCartItem cola 4] (Food.mkCartItem cola 1)).
  - repeat constructor. discriminate.
  - reflexivity.
  - by vm_compute.
Defined.

(* at 2^53 the double stays where it is: one more cola changes nothing *)
Lemma add_at_the_top_of_the_integers :
  Food.handleAddToCart fst cola [Food.mkCartItem cola 9007199254740992]
  = [Food.mkCartItem cola 9007199254740992].
Proof. reflexivity. Qed.

Lemma add_repeatedly_witness :
  Nat.iter 3 (Food.handleAddToCart fst wrap) small_cart
  = (small_cart ++ [Food.mkCartItem wrap 3])%list.
Proof.
  apply (add_repeatedly fst wrap small_cart 2).
  - compute_done.
  - by vm_compute.
Defined.
